(** * WhisperX GUI: the transcription worker, the job controller and the
      result exporter of [whisperx_gui/main.py], embedded in Rocq.

    Conventions of the embedding.
    - A Python [float] is the rational it denotes, in [Q].  An arithmetic
      operation on floats returns the binary64 number nearest to the exact
      result, ties to even ([Py.round64]): where the program adds,
      subtracts, multiplies or divides floats the embedding rounds.  [//]
      and [int()] are the exact floor division and truncation, and [%] is
      exact but for the rounded addition that moves a remainder to the
      sign of the divisor, as they are on the floats below [2^53] in
      magnitude that the program handles.  Infinities and NaN are not
      modelled.  An [int] handed to a function written for floats (the
      default [0] of a timestamp) goes through the same operations, which
      are exact on it.
    - A [str] is a [string] read one character per code point below 256.
    - A [dict] with string keys is a [gmap string _]; [d.get(k, v)] is the
      lookup with a default. *)

From Stdlib Require Import ZArith QArith Qround Lia Ascii String Sorted.
From stdpp Require Import base option list strings gmap pretty.

Local Open Scope Z_scope.

(** ** Python numbers and strings *)

Module Py.

(** [int(x)]: truncation towards zero. *)
Definition int (x : Q) : Z := Z.quot (Qnum x) (Z.pos (Qden x)).

(** The integer nearest to [a / b], for [0 <= a] and [0 < b]; of two
    nearest integers the even one. *)
Definition round_half_even (a b : Z) : Z :=
  let f := a / b in
  let r := a mod b in
  if 2 * r <? b then f
  else if b <? 2 * r then f + 1
  else if Z.even f then f else f + 1.

(** The binade of [n / d]: the least [j >= 0] with [n / d < 2^(j - 1021)],
    found by doubling; [n] comes multiplied by [2^1021] and [dj] is
    [d * 2^j]. *)
Fixpoint binade (fuel : nat) (j n dj : Z) : Z :=
  match fuel with
  | O => j
  | S fuel' => if n <? dj then j else binade fuel' (j + 1) n (2 * dj)
  end.

(** The binary64 number nearest to [n / d]: in binade [j] the numbers are
    the multiples of [2^(j - 1074)] (53 significant bits; the subnormal
    numbers share the spacing [2^-1074] of binade 0). *)
Definition round_pos (n d : positive) : Q :=
  let j := binade 2046 0 (Z.pos n * 2 ^ 1021) (Z.pos d) in
  if j <=? 1074
  then Qmake (round_half_even (Z.pos n * 2 ^ (1074 - j)) (Z.pos d))
             (Z.to_pos (2 ^ (1074 - j)))
  else inject_Z (round_half_even (Z.pos n) (Z.pos d * 2 ^ (j - 1074))
                 * 2 ^ (j - 1074)).

(** Rounding to binary64, to nearest, ties to even, of a number below
    [2^1024] in magnitude. *)
Definition round64 (x : Q) : Q :=
  match Qnum x with
  | Z0 => 0%Q
  | Z.pos n => round_pos n (Qden x)
  | Z.neg n => Qopp (round_pos n (Qden x))
  end.


(** [x + y], [x - y], [x * y] and [x / y] on floats; the quotient of two
    [int]s is rounded in the same way. *)
Definition fadd (x y : Q) : Q := round64 (x + y).
Definition fsub (x y : Q) : Q := round64 (x - y).
Definition fmul (x y : Q) : Q := round64 (x * y).
Definition fdiv (x y : Q) : Q := round64 (x / y).

(** [x // y] on numbers, for a non-zero [y]. *)
Definition floordiv (x y : Q) : Q := inject_Z (Qfloor (x / y)).

(** C's [fmod]: the remainder of the truncated division, which has the
    sign of [x] and is exact. *)
Definition fmod (x y : Q) : Q := (x - y * inject_Z (int (x / y)))%Q.

(** [x % y] on floats, for a non-zero [y]: a non-zero [fmod] whose sign
    differs from the sign of [y] is moved by adding [y]. *)
Definition mod_ (x y : Q) : Q :=
  let m := fmod x y in
  if Qeq_bool m 0 then 0%Q
  else if Bool.eqb (Qle_bool 0 y) (Qle_bool 0 m) then m
  else fadd m y.

(** [str(n)] for an [int]. *)
Definition str_int (n : Z) : string := pretty n.

Fixpoint zeros (n : nat) : string :=
  match n with
  | O => ""
  | S n' => String "0"%char (zeros n')
  end.

(** The format specification [{n:0wd}]: sign first, then zeros up to the
    width [w], then the digits. *)
Definition format_0d (w : nat) (n : Z) : string :=
  let sign := if n <? 0 then "-" else "" in
  let digits := pretty (Z.abs n) in
  sign +:+ zeros (w - String.length sign - String.length digits) +:+ digits.

(** [c.isspace()] for a code point below 256. *)
Definition isspace (c : ascii) : bool :=
  let n := nat_of_ascii c in
  ((9 <=? n) && (n <=? 13) || (28 <=? n) && (n <=? 32)
   || (n =? 133) || (n =? 160))%nat.

Fixpoint lstrip (s : string) : string :=
  match s with
  | String c s' => if isspace c then lstrip s' else s
  | EmptyString => EmptyString
  end.

(** [rstrip] keeps a character when it is not a space or when something
    is kept after it. *)
Fixpoint rstrip (s : string) : string :=
  match s with
  | String c s' =>
      match rstrip s' with
      | EmptyString => if isspace c then EmptyString else String c EmptyString
      | r => String c r
      end
  | EmptyString => EmptyString
  end.

(** [s.strip()] *)
Definition strip (s : string) : string := rstrip (lstrip s).

(** [sep.join(l)] *)
Fixpoint join (sep : string) (l : list string) : string :=
  match l with
  | [] => ""
  | [s] => s
  | s :: l' => s +:+ sep +:+ join sep l'
  end.

End Py.

(** ** [TranscriptionWorker.format_duration] *)

Definition format_duration (seconds : Q) : string :=
  let minutes := Py.int (Py.floordiv seconds 60) in
  let secs := Py.int (Py.mod_ seconds 60) in
  if 0 <? minutes
  then Py.str_int minutes +:+ "m " +:+ Py.str_int secs +:+ "s"
  else Py.str_int secs +:+ "s".

(** ** [WhisperXGUI.format_time] *)

Definition format_time (seconds : Q) : string :=
  let hours := Py.int (Py.floordiv seconds 3600) in
  let minutes := Py.int (Py.floordiv (Py.mod_ seconds 3600) 60) in
  let secs := Py.int (Py.mod_ seconds 60) in
  let millis :=
    Py.int (Py.fmul (Py.fsub seconds (inject_Z (Py.int seconds))) 1000) in
  Py.format_0d 2 hours +:+ ":" +:+ Py.format_0d 2 minutes +:+ ":"
    +:+ Py.format_0d 2 secs +:+ "," +:+ Py.format_0d 3 millis.

(** ** Python values, exceptions, segments and results *)

(** The values a segment dictionary holds under the keys the program
    reads.  The nested [words] list is never read and is left out. *)
Inductive pyval :=
  | VNone
  | VInt (n : Z)
  | VFloat (x : Q)
  | VStr (s : string).

(** [type(v).__name__] *)
Definition type_name (v : pyval) : string :=
  match v with
  | VNone => "NoneType"
  | VInt _ => "int"
  | VFloat _ => "float"
  | VStr _ => "str"
  end.

(** An exception: its class and [str(e)].  [Exception] builds the
    instances of the class [Exception], which [except Exception] catches;
    [BaseException] builds the others ([SystemExit], [KeyboardInterrupt],
    [GeneratorExit] and what derives from them). *)
Inductive exn :=
  | Exception (cls : string) (msg : string)
  | BaseException (cls : string) (msg : string).

Definition str_exn (e : exn) : string :=
  match e with
  | Exception _ msg => msg
  | BaseException _ msg => msg
  end.

Definition KeyError (k : string) : exn :=
  Exception "KeyError" ("'" +:+ k +:+ "'").

Definition AttributeError (v : pyval) (attr : string) : exn :=
  Exception "AttributeError"
    ("'" +:+ type_name v +:+ "' object has no attribute '" +:+ attr +:+ "'").

Definition TypeError (msg : string) : exn := Exception "TypeError" msg.

(** A segment is a [dict]; a result is the [dict] returned by the
    pipeline, of which the program reads the keys [language] and
    [segments] ([None] when the key is absent). *)
Abbreviation Segment := (gmap string pyval).

Record Result := {
  res_language : option string;
  res_segments : option (list Segment);
}.

(** [bool(result)]: a [dict] is true when it is not empty. *)
Definition result_truthy (r : Result) : bool :=
  bool_decide (is_Some (res_language r)) || bool_decide (is_Some (res_segments r)).

(** [d.get(k, default)] *)
Definition dict_get {V} (d : gmap string V) (k : string) (dflt : V) : V :=
  default dflt (d !! k).

(** Fallible computations: a value or a raised exception. *)
Inductive try (A : Type) :=
  | Ok (a : A)
  | Raise (e : exn).
Arguments Ok {A} a.
Arguments Raise {A} e.

#[global] Instance try_ret : MRet try := @Ok.
#[global] Instance try_bind : MBind try := λ A B f m,
  match m with
  | Ok a => f a
  | Raise e => Raise e
  end.

Definition nl : string := String "010"%char "".

(** ** The result exporter ([WhisperXGUI.export_result]) *)

(** [format_time(v)] on a dynamically typed argument: the first operation,
    [seconds // 3600], raises on anything but a number. *)
Definition format_time_val (v : pyval) : try string :=
  match v with
  | VInt n => Ok (format_time (inject_Z n))
  | VFloat x => Ok (format_time x)
  | _ => Raise (TypeError ("unsupported operand type(s) for //: '"
                            +:+ type_name v +:+ "' and 'int'"))
  end.

(** [v.strip()] *)
Definition val_strip (v : pyval) : try string :=
  match v with
  | VStr s => Ok (Py.strip s)
  | _ => Raise (AttributeError v "strip")
  end.

(** [sep.join(l)] on a list of values: every item must be a [str]. *)
Fixpoint join_items (i : nat) (l : list pyval) : try (list string) :=
  match l with
  | [] => Ok []
  | VStr s :: l' => rest ← join_items (S i) l'; Ok (s :: rest)
  | v :: _ => Raise (TypeError ("sequence item " +:+ pretty i
                +:+ ": expected str instance, " +:+ type_name v +:+ " found"))
  end.

Definition val_join (sep : string) (l : list pyval) : try string :=
  items ← join_items 0 l; Ok (Py.join sep items).

(** [[seg.get("text", "") for seg in segments]] *)
Definition segment_texts (segments : list Segment) : list pyval :=
  (λ seg, dict_get seg "text" (VStr "")) <$> segments.

(** The text written by the [txt] branch. *)
Definition txt_content (r : Result) : try string :=
  text ← val_join " " (segment_texts (default [] (res_segments r)));
  Ok (Py.strip text).

(** One iteration of the [srt] loop: the block appended for segment [seg]
    numbered [i]. *)
Definition srt_block (i : Z) (seg : Segment) : try string :=
  start ← format_time_val (dict_get seg "start" (VInt 0));
  end_ ← format_time_val (dict_get seg "end" (VInt 0));
  text ← val_strip (dict_get seg "text" (VStr ""));
  Ok (Py.str_int i +:+ nl +:+ start +:+ " --> " +:+ end_ +:+ nl
        +:+ text +:+ nl +:+ nl).

(** [for i, seg in enumerate(segments, i): srt_content += ...] *)
Fixpoint srt_loop (i : Z) (segments : list Segment) (srt_content : string)
  : try string :=
  match segments with
  | [] => Ok srt_content
  | seg :: rest =>
      block ← srt_block i seg;
      srt_loop (i + 1) rest (srt_content +:+ block)
  end.

(** The text written by the [srt] branch. *)
Definition srt_content (r : Result) : try string :=
  srt_loop 1 (default [] (res_segments r)) "".

(** ** The transcription worker ([TranscriptionWorker]) *)

(** The settings dictionary handed to the worker; [None] stands for an
    absent key or a [None] value, which [settings.get] treats alike for the
    keys whose default is [None]. *)
Record Settings := {
  s_model : option string;
  s_language : option string;
  s_device : option string;
  s_compute_type : option string;
  s_batch_size : option Z;
  s_align : option bool;
  s_diarize : option bool;
  s_hf_token : option string;
  s_min_speakers : option Z;
  s_max_speakers : option Z;
}.

(** [bool(s)] for an optional string: [None] and the empty string are
    false. *)
Definition str_truthy (s : option string) : bool :=
  match s with
  | Some (String _ _) => true
  | _ => false
  end.

(** The external pipeline ([whisperx], [torch]): opaque objects and calls
    that return or raise. *)
Record Pipeline := {
  Model : Type;
  Audio : Type;
  AlignModel : Type;
  Metadata : Type;
  DiarizeModel : Type;
  DiarizeSegments : Type;
  import_modules : try ();
  load_model : string → string → string → try Model;
  load_audio : string → try Audio;
  audio_len : Audio → nat;
  transcribe : Model → Audio → Z → option string → try Result;
  load_align_model : string → string → try (AlignModel * Metadata);
  align : list Segment → AlignModel → Metadata → Audio → string → try Result;
  cuda_is_available : bool;
  cuda_empty_cache : try ();
  DiarizationPipeline : string → string → try DiarizeModel;
  diarize_model : DiarizeModel → Audio → option Z → option Z → try DiarizeSegments;
  assign_word_speakers : DiarizeSegments → Result → try Result;
}.

(** The three signals of the worker. *)
Inductive Signal :=
  | Progress (value : Z) (message : string)
  | Finished (r : Result)
  | Error (message : string).

Inductive call :=
  | ImportModules
  | LoadModel
  | LoadAudio
  | Transcribe
  | LoadAlignModel
  | Align
  | NewDiarizationPipeline
  | Diarize
  | AssignWordSpeakers
  | CudaEmptyCache.

(** What a run does, in order: signals emitted, reads of the cancellation
    flag, pipeline calls entered, and the cleanup statements. *)
Inductive action :=
  | Emit (s : Signal)
  | ReadCancelled (b : bool)
  | Call (c : call)
  | Del (variable : string)
  | GcCollect.

(** How a block of [run] ends: normally, by [return], or by an exception. *)
Inductive outcome (A : Type) :=
  | Normal (a : A)
  | Returned
  | Raised (e : exn).
Arguments Normal {A} a.
Arguments Returned {A}.
Arguments Raised {A} e.

(** A block of [run]: from the actions done so far to an outcome and the
    actions done then. *)
Definition Run (A : Type) : Type := list action → outcome A * list action.

#[global] Instance Run_ret : MRet Run := λ A a log, (Normal a, log).
#[global] Instance Run_bind : MBind Run := λ A B f m log,
  match m log with
  | (Normal a, log') => f a log'
  | (Returned, log') => (Returned, log')
  | (Raised e, log') => (Raised e, log')
  end.

Definition act (a : action) : Run () := λ log, (Normal (), log ++ [a]).

Definition emit (s : Signal) : Run () := act (Emit s).

(** A pipeline call: entered, then it returns or raises. *)
Definition do_call {A} (c : call) (r : try A) : Run A := λ log,
  match r with
  | Ok a => (Normal a, log ++ [Call c])
  | Raise e => (Raised e, log ++ [Call c])
  end.

Definition raise {A} (e : exn) : Run A := λ log, (Raised e, log).

(** [if self._is_cancelled: return].  The flag is written by the GUI
    thread; [flag n] is what the worker reads once it has done [n]
    actions. *)
Definition check_cancelled (flag : nat → bool) : Run () := λ log,
  if flag (length log)
  then (Returned, log ++ [ReadCancelled true])
  else (Normal (), log ++ [ReadCancelled false]).

(** [result[key]] *)
Definition subscript {A} (key : string) (v : option A) : Run A :=
  match v with
  | Some a => mret a
  | None => raise (KeyError key)
  end.

(** [try: body except Exception as e: handler(e)]: an exception that is
    not an instance of [Exception] is not caught and leaves the
    statement. *)
Definition try_except (body : Run ()) (handler : exn → Run ()) : Run () :=
  λ log,
  match body log with
  | (Raised (Exception cls msg), log') => handler (Exception cls msg) log'
  | r => r
  end.

(** [del model_a; gc.collect(); if torch.cuda.is_available():
    torch.cuda.empty_cache()] *)
Definition cleanup (env : Pipeline) (variable : string) : Run () :=
  act (Del variable);;
  act GcCollect;;
  if cuda_is_available env
  then do_call CudaEmptyCache (cuda_empty_cache env)
  else mret ().

(** The body of the [try] statement of [TranscriptionWorker.run].  The
    unused locals [file_name] and [estimated_batches] are left out. *)
Definition run_body (env : Pipeline) (flag : nat → bool)
    (audio_file : string) (settings : Settings) : Run () :=
  do_call ImportModules (import_modules env);;
  let device := default "cpu" (s_device settings) in
  let model_name := default "small" (s_model settings) in
  let compute_type := default "int8" (s_compute_type settings) in
  let batch_size := default 8 (s_batch_size settings) in
  let language := s_language settings in
  let do_align := default true (s_align settings) in
  let do_diarize := default false (s_diarize settings) in
  emit (Progress 5 ("🔄 Chargement du modèle '" +:+ model_name +:+ "'..."));;
  check_cancelled flag;;
  model ← do_call LoadModel (load_model env model_name device compute_type);
  emit (Progress 15 "✅ Modèle chargé • Chargement de l'audio...");;
  check_cancelled flag;;
  audio ← do_call LoadAudio (load_audio env audio_file);
  let audio_duration :=
    Py.fdiv (inject_Z (Z.of_nat (audio_len env audio))) 16000 in
  let duration_str := format_duration audio_duration in
  emit (Progress 20 ("📁 Audio: " +:+ duration_str
                       +:+ " • Démarrage transcription..."));;
  check_cancelled flag;;
  let transcribe_language := if str_truthy language then language else None in
  emit (Progress 25 ("🎙️ Transcription de " +:+ duration_str +:+ " d'audio..."));;
  result ← do_call Transcribe
             (transcribe env model audio batch_size transcribe_language);
  let detected_lang := default "??" (res_language result) in
  let num_segments := Z.of_nat (length (default [] (res_segments result))) in
  emit (Progress 50 ("✅ Transcription terminée • " +:+ Py.str_int num_segments
                       +:+ " segments • Langue: " +:+ detected_lang));;
  check_cancelled flag;;
  result ←
    (if do_align then
       emit (Progress 55 ("🔄 Chargement du modèle d'alignement ("
                            +:+ detected_lang +:+ ")..."));;
       language_code ← subscript "language" (res_language result);
       '(model_a, metadata) ← do_call LoadAlignModel
                                 (load_align_model env language_code device);
       emit (Progress 65 "⏱️ Alignement des mots en cours...");;
       segments ← subscript "segments" (res_segments result);
       result ← do_call Align (align env segments model_a metadata audio device);
       emit (Progress 75 "✅ Alignement terminé");;
       cleanup env "model_a";;
       mret result
     else
       emit (Progress 75 "⏭️ Alignement ignoré");;
       mret result);
  check_cancelled flag;;
  result ←
    (if do_diarize then
       let hf_token := s_hf_token settings in
       if str_truthy hf_token then
         emit (Progress 80 "🔄 Chargement du modèle de diarisation...");;
         diarize_model_ ← do_call NewDiarizationPipeline
                            (DiarizationPipeline env (default "" hf_token) device);
         emit (Progress 85 "👥 Identification des locuteurs...");;
         diarize_segments ← do_call Diarize
                              (diarize_model env diarize_model_ audio
                                 (s_min_speakers settings) (s_max_speakers settings));
         emit (Progress 95 "🔗 Attribution des locuteurs aux segments...");;
         do_call AssignWordSpeakers
           (assign_word_speakers env diarize_segments result)
       else mret result
     else
       emit (Progress 95 "⏭️ Diarisation ignorée");;
       mret result);
  emit (Progress 98 "🧹 Nettoyage de la mémoire...");;
  cleanup env "model";;
  emit (Progress 100 ("🎉 Terminé ! " +:+ Py.str_int num_segments
                        +:+ " segments transcrits"));;
  emit (Finished result).

(** [TranscriptionWorker.run] *)
Definition run (env : Pipeline) (flag : nat → bool)
    (audio_file : string) (settings : Settings) : Run () :=
  try_except (run_body env flag audio_file settings)
    (λ e, emit (Error (str_exn e))).

(** ** The job controller ([WhisperXGUI]) *)

(** A [TranscriptionWorker] object as the GUI thread sees it. *)
Record Thread := {
  th_audio_file : string;
  th_settings : Settings;
  th_is_cancelled : bool;
  th_running : bool;
}.

Inductive Dialog :=
  | Warning (title text : string)
  | Critical (title text : string)
  | Information (title text : string).

(** The settings widgets, which only the user changes. *)
Record SettingsPanel := {
  model_combo : string;
  language_combo : option string;
  device_combo : string;
  compute_combo : string;
  batch_spin : Z;
  align_check : bool;
  diarize_check : bool;
  hf_token_input : string;
  min_speakers_spin : Z;
  max_speakers_spin : Z;
}.

(** The widgets the handlers write.  Labels and styles that nothing reads
    are left out.  For the three result panes the record holds the string
    last handed to [setText] ([clear()] hands the empty string); how the
    widget renders that string is not modelled. *)
Record View := {
  transcribe_btn_enabled : bool;
  transcribe_btn_visible : bool;
  cancel_btn_visible : bool;
  progress_group_visible : bool;
  progress_bar : Z;
  progress_label : string;
  status_bar : string;
  text_result : string;
  segments_result : string;
  json_result : string;
  export_txt_btn_enabled : bool;
  export_srt_btn_enabled : bool;
  export_json_btn_enabled : bool;
}.

(** The window: the three attributes set by [__init__], its widgets, and
    what the handlers reach outside the window: the worker threads created
    so far ([worker] is an index into them), the message boxes shown and
    the files written. *)
Record GUI := {
  current_file : option string;
  worker : option nat;
  result : option Result;
  panel : SettingsPanel;
  view : View;
  threads : list Thread;
  dialogs : list Dialog;
  files : gmap string string;
}.

(** The window after [__init__]; the device preselected depends on
    [torch.cuda.is_available()]. *)
Definition init_gui (cuda : bool) : GUI := {|
  current_file := None;
  worker := None;
  result := None;
  panel := {|
    model_combo := "small"; language_combo := None;
    device_combo := if cuda then "cuda" else "cpu";
    compute_combo := "int8"; batch_spin := 8; align_check := true;
    diarize_check := false; hf_token_input := "";
    min_speakers_spin := 0; max_speakers_spin := 0 |};
  view := {|
    transcribe_btn_enabled := false; transcribe_btn_visible := true;
    cancel_btn_visible := false; progress_group_visible := false;
    progress_bar := -1; progress_label := "En attente...";
    status_bar := "Prêt • Sélectionnez un fichier audio pour commencer";
    text_result := ""; segments_result := ""; json_result := "";
    export_txt_btn_enabled := false; export_srt_btn_enabled := false;
    export_json_btn_enabled := false |};
  threads := [];
  dialogs := [];
  files := ∅;
|}.

Definition with_view (f : View → View) (g : GUI) : GUI :=
  {| current_file := current_file g; worker := worker g; result := result g;
     panel := panel g; view := f (view g); threads := threads g;
     dialogs := dialogs g; files := files g |}.

Definition show_dialog (d : Dialog) (g : GUI) : GUI :=
  {| current_file := current_file g; worker := worker g; result := result g;
     panel := panel g; view := view g; threads := threads g;
     dialogs := dialogs g ++ [d]; files := files g |}.

Definition show_message (message : string) (v : View) : View :=
  {| transcribe_btn_enabled := transcribe_btn_enabled v;
     transcribe_btn_visible := transcribe_btn_visible v;
     cancel_btn_visible := cancel_btn_visible v;
     progress_group_visible := progress_group_visible v;
     progress_bar := progress_bar v;
     progress_label := progress_label v;
     status_bar := message;
     text_result := text_result v;
     segments_result := segments_result v;
     json_result := json_result v;
     export_txt_btn_enabled := export_txt_btn_enabled v;
     export_srt_btn_enabled := export_srt_btn_enabled v;
     export_json_btn_enabled := export_json_btn_enabled v |}.

(** [os.path.basename]: what follows the last slash. *)
Fixpoint basename_from (acc p : string) : string :=
  match p with
  | EmptyString => acc
  | String c p' =>
      if Ascii.eqb c "/" then basename_from "" p'
      else basename_from (acc +:+ String c "") p'
  end.

Definition basename (p : string) : string := basename_from "" p.

(** [on_file_selected], for a file whose size [os.path.getsize] returns. *)
Definition on_file_selected (file_path : string) (g : GUI) : GUI :=
  let g := {| current_file := Some file_path; worker := worker g;
              result := result g; panel := panel g; view := view g;
              threads := threads g; dialogs := dialogs g; files := files g |} in
  let file_name := basename file_path in
  with_view (λ v, show_message ("Prêt • " +:+ file_name +:+ " sélectionné")
    {| transcribe_btn_enabled := true;
       transcribe_btn_visible := transcribe_btn_visible v;
       cancel_btn_visible := cancel_btn_visible v;
       progress_group_visible := progress_group_visible v;
       progress_bar := progress_bar v;
       progress_label := progress_label v;
       status_bar := status_bar v;
       text_result := text_result v;
       segments_result := segments_result v;
       json_result := json_result v;
       export_txt_btn_enabled := export_txt_btn_enabled v;
       export_srt_btn_enabled := export_srt_btn_enabled v;
       export_json_btn_enabled := export_json_btn_enabled v |}) g.

(** [get_settings] *)
Definition get_settings (g : GUI) : Settings :=
  let p := panel g in
  {| s_model := Some (model_combo p);
     s_language := language_combo p;
     s_device := Some (device_combo p);
     s_compute_type := Some (compute_combo p);
     s_batch_size := Some (batch_spin p);
     s_align := Some (align_check p);
     s_diarize := Some (diarize_check p);
     s_hf_token := if diarize_check p then Some (hf_token_input p) else None;
     s_min_speakers :=
       if 0 <? min_speakers_spin p then Some (min_speakers_spin p) else None;
     s_max_speakers :=
       if 0 <? max_speakers_spin p then Some (max_speakers_spin p) else None |}.

(** [reset_ui_after_transcription] *)
Definition reset_ui_after_transcription (g : GUI) : GUI :=
  with_view (λ v,
    {| transcribe_btn_enabled := true;
       transcribe_btn_visible := true;
       cancel_btn_visible := false;
       progress_group_visible := false;
       progress_bar := progress_bar v;
       progress_label := "En attente...";
       status_bar := status_bar v;
       text_result := text_result v;
       segments_result := segments_result v;
       json_result := json_result v;
       export_txt_btn_enabled := export_txt_btn_enabled v;
       export_srt_btn_enabled := export_srt_btn_enabled v;
       export_json_btn_enabled := export_json_btn_enabled v |}) g.

(** [TranscriptionWorker(self.current_file, settings)] followed by
    [start()]: a new running thread, which [self.worker] now names. *)
Definition start_worker (audio_file : string) (settings : Settings) (g : GUI)
  : GUI :=
  {| current_file := current_file g;
     worker := Some (length (threads g));
     result := result g; panel := panel g; view := view g;
     threads := threads g ++ [ {| th_audio_file := audio_file;
                                  th_settings := settings;
                                  th_is_cancelled := false;
                                  th_running := true |} ];
     dialogs := dialogs g; files := files g |}.

(** [start_transcription] *)
Definition start_transcription (g : GUI) : GUI :=
  if negb (str_truthy (current_file g)) then g
  else if diarize_check (panel g) && bool_decide (hf_token_input (panel g) = "")
  then show_dialog
         (Warning "Jeton HuggingFace requis"
            ("La diarisation nécessite un jeton HuggingFace." +:+ nl +:+ nl
             +:+ "Veuillez entrer votre jeton ou désactiver la diarisation.")) g
  else
    let g := with_view (λ v,
      {| transcribe_btn_enabled := false;
         transcribe_btn_visible := false;
         cancel_btn_visible := true;
         progress_group_visible := true;
         progress_bar := 0;
         progress_label := "Démarrage...";
         status_bar := status_bar v;
         text_result := "";
         segments_result := "";
         json_result := "";
         export_txt_btn_enabled := export_txt_btn_enabled v;
         export_srt_btn_enabled := export_srt_btn_enabled v;
         export_json_btn_enabled := export_json_btn_enabled v |}) g in
    let settings := get_settings g in
    let g := start_worker (default "" (current_file g)) settings g in
    with_view (show_message "Transcription en cours...") g.

(** [worker.cancel(); worker.quit(); worker.wait()]: the flag is set and
    the call returns once [run] has returned. *)
Definition cancel_and_wait (i : nat) (g : GUI) : GUI :=
  {| current_file := current_file g; worker := worker g; result := result g;
     panel := panel g; view := view g;
     threads := alter (λ th, {| th_audio_file := th_audio_file th;
                                th_settings := th_settings th;
                                th_is_cancelled := true;
                                th_running := false |}) i (threads g);
     dialogs := dialogs g; files := files g |}.

(** [cancel_transcription] *)
Definition cancel_transcription (g : GUI) : GUI :=
  let g := match worker g with
           | Some i => cancel_and_wait i g
           | None => g
           end in
  let g := reset_ui_after_transcription g in
  with_view (show_message "Transcription annulée") g.

(** [on_progress] *)
Definition on_progress (value : Z) (message : string) (g : GUI) : GUI :=
  with_view (λ v, show_message message
    {| transcribe_btn_enabled := transcribe_btn_enabled v;
       transcribe_btn_visible := transcribe_btn_visible v;
       cancel_btn_visible := cancel_btn_visible v;
       progress_group_visible := progress_group_visible v;
       progress_bar := value;
       progress_label := message;
       status_bar := status_bar v;
       text_result := text_result v;
       segments_result := segments_result v;
       json_result := json_result v;
       export_txt_btn_enabled := export_txt_btn_enabled v;
       export_srt_btn_enabled := export_srt_btn_enabled v;
       export_json_btn_enabled := export_json_btn_enabled v |}) g.

(** [on_transcription_error] *)
Definition on_transcription_error (error : string) (g : GUI) : GUI :=
  let g := show_dialog
             (Critical "Erreur"
                ("La transcription a échoué :" +:+ nl +:+ nl +:+ error)) g in
  let g := reset_ui_after_transcription g in
  with_view (show_message ("❌ Erreur : " +:+ error)) g.

Section Display.

(** Two renderings that are not modelled: [json.dumps(result, indent=2,
    ensure_ascii=False)] and [str(x)] for a [float]. *)
Variable json_dumps : Result → string.
Variable str_float : Q → string.

(** [bool(v)] *)
Definition val_truthy (v : pyval) : bool :=
  match v with
  | VNone => false
  | VInt n => negb (n =? 0)
  | VFloat x => negb (Qeq_bool x 0)
  | VStr s => str_truthy (Some s)
  end.

(** [f"{v}"] *)
Definition val_format (v : pyval) : string :=
  match v with
  | VNone => "None"
  | VInt n => Py.str_int n
  | VFloat x => str_float x
  | VStr s => s
  end.

(** One iteration of the loop that fills the segments pane. *)
Definition segment_line (seg : Segment) : try string :=
  let start := dict_get seg "start" (VInt 0) in
  let end_ := dict_get seg "end" (VInt 0) in
  let text := dict_get seg "text" (VStr "") in
  let speaker := dict_get seg "speaker" (VStr "") in
  ts ← format_time_val start;
  te ← format_time_val end_;
  if val_truthy speaker
  then Ok ("[" +:+ ts +:+ " → " +:+ te +:+ "] " +:+ val_format speaker
             +:+ ": " +:+ val_format text +:+ nl)
  else Ok ("[" +:+ ts +:+ " → " +:+ te +:+ "] " +:+ val_format text +:+ nl).

Fixpoint segment_lines (segments : list Segment) (segments_text : string)
  : try string :=
  match segments with
  | [] => Ok segments_text
  | seg :: rest =>
      line ← segment_line seg;
      segment_lines rest (segments_text +:+ line)
  end.

(** [on_transcription_complete]: each pane is handed its string by
    [setText]; an exception raised while the strings are computed leaves
    the slot. *)
Definition on_transcription_complete (r : Result) (g : GUI) : try GUI :=
  let g := {| current_file := current_file g; worker := worker g;
              result := Some r; panel := panel g; view := view g;
              threads := threads g; dialogs := dialogs g; files := files g |} in
  '(text_pane, segments_pane) ←
     match res_segments r with
     | Some segments =>
         text ← val_join " " (segment_texts segments);
         segments_text ← segment_lines segments "";
         Ok (Py.strip text, segments_text)
     | None => Ok (text_result (view g), segments_result (view g))
     end;
  let g := with_view (λ v,
    {| transcribe_btn_enabled := transcribe_btn_enabled v;
       transcribe_btn_visible := transcribe_btn_visible v;
       cancel_btn_visible := cancel_btn_visible v;
       progress_group_visible := progress_group_visible v;
       progress_bar := progress_bar v;
       progress_label := progress_label v;
       status_bar := status_bar v;
       text_result := text_pane;
       segments_result := segments_pane;
       json_result := json_dumps r;
       export_txt_btn_enabled := true;
       export_srt_btn_enabled := true;
       export_json_btn_enabled := true |}) g in
  let g := reset_ui_after_transcription g in
  Ok (with_view (show_message "✅ Transcription terminée !") g).

(** How writing a file fails, when it does: [open(file_path, "w")] raises
    and the file is left as it was, or [open] has truncated the file and
    the write raises, leaving in the file what was written until then.
    The exception is an instance of [Exception] (an [OSError], or what
    [json.dump] or the encoder raises) of class [cls] with text [msg]. *)
Inductive write_failure :=
  | OpenFails (cls msg : string)
  | WriteFails (cls msg : string) (written : string).

Definition set_file (file_path content : string) (g : GUI) : GUI :=
  {| current_file := current_file g; worker := worker g;
     result := result g; panel := panel g; view := view g;
     threads := threads g; dialogs := dialogs g;
     files := <[file_path := content]> (files g) |}.

(** [with open(file_path, "w", encoding="utf-8") as f: f.write(content)]:
    the window and the files afterwards, and the exception raised, if
    any. *)
Definition write_file (write_error : option write_failure)
    (file_path content : string) (g : GUI) : GUI * option exn :=
  match write_error with
  | None => (set_file file_path content g, None)
  | Some (OpenFails cls msg) => (g, Some (Exception cls msg))
  | Some (WriteFails cls msg written) =>
      (set_file file_path written g, Some (Exception cls msg))
  end.

(** [export_result(format)]; [file_path] is what the save dialog
    returns.  The content is computed before the file is opened.  What
    the [try] block raises is an instance of [Exception], which the
    handler catches. *)
Definition export_result (format : string) (file_path : string)
    (write_error : option write_failure) (g : GUI) : GUI :=
  match result g with
  | None => g
  | Some r =>
      if negb (result_truthy r) then g
      else if negb (str_truthy (Some file_path)) then g
      else
        let written :=
          if String.eqb format "txt" then
            match txt_content r with
            | Ok text => write_file write_error file_path text g
            | Raise e => (g, Some e)
            end
          else if String.eqb format "srt" then
            match srt_content r with
            | Ok content => write_file write_error file_path content g
            | Raise e => (g, Some e)
            end
          else if String.eqb format "json" then
            write_file write_error file_path (json_dumps r) g
          else (g, None) in
        match written with
        | (g, None) =>
            let g := with_view (show_message ("✅ Exporté vers " +:+ file_path)) g in
            show_dialog (Information "Export terminé"
                           ("Fichier enregistré :" +:+ nl +:+ file_path)) g
        | (g, Some e) =>
            show_dialog (Critical "Erreur d'export"
                           ("Échec de l'export :" +:+ nl +:+ str_exn e)) g
        end
  end.

(** *** The event loop *)

(** What reaches the window: user input and the signals of the worker
    threads.  A push button emits [clicked] only while it is enabled and
    shown.  A signal of a worker is delivered to its slot in the GUI
    thread, in the order of emission.  [CancelClicked late] carries the
    signals that the worker emits between the click and the return of
    [wait()]; they are queued and delivered once the slot has returned,
    before any later event.  [FileDropped] is the [fileDropped] signal of
    the drop zone; the file dialog emits it for a non-empty path only, and
    a drop of something that is not a local file emits it with the empty
    path, on which [os.path.getsize] raises before [on_file_selected]
    enables the start button: the exception leaves the slot, and PyQt6
    ends the program when an exception leaves a slot. *)
Inductive Event :=
  | FileDropped (file_path : string)
  | PanelEdited (p : SettingsPanel)
  | TranscribeClicked
  | CancelClicked (late : list Signal)
  | ExportClicked (format file_path : string)
      (write_error : option write_failure)
  | WorkerSignal (i : nat) (s : Signal).

Definition set_panel (p : SettingsPanel) (g : GUI) : GUI :=
  {| current_file := current_file g; worker := worker g; result := result g;
     panel := p; view := view g; threads := threads g;
     dialogs := dialogs g; files := files g |}.

(** The slot connected to each signal. *)
Definition deliver (s : Signal) (g : GUI) : try GUI :=
  match s with
  | Progress value message => Ok (on_progress value message g)
  | Finished r => on_transcription_complete r g
  | Error message => Ok (on_transcription_error message g)
  end.

Fixpoint deliver_all (l : list Signal) (g : GUI) : try GUI :=
  match l with
  | [] => Ok g
  | s :: l' => g' ← deliver s g; deliver_all l' g'
  end.

(** [run] returns right after it has emitted [finished] or [error]. *)
Definition is_terminal (s : Signal) : bool :=
  match s with
  | Progress _ _ => false
  | _ => true
  end.

Definition thread_exits (i : nat) (g : GUI) : GUI :=
  {| current_file := current_file g; worker := worker g; result := result g;
     panel := panel g; view := view g;
     threads := alter (λ th, {| th_audio_file := th_audio_file th;
                                th_settings := th_settings th;
                                th_is_cancelled := th_is_cancelled th;
                                th_running := false |}) i (threads g);
     dialogs := dialogs g; files := files g |}.

Definition export_btn_enabled (format : string) (v : View) : bool :=
  if String.eqb format "txt" then export_txt_btn_enabled v
  else if String.eqb format "srt" then export_srt_btn_enabled v
  else if String.eqb format "json" then export_json_btn_enabled v
  else false.

(** One turn of the event loop; [None] when the event cannot occur in
    this state or when its slot raises. *)
Definition handle (ev : Event) (g : GUI) : option GUI :=
  match ev with
  | FileDropped file_path =>
      if str_truthy (Some file_path)
      then Some (on_file_selected file_path g) else None
  | PanelEdited p => Some (set_panel p g)
  | TranscribeClicked =>
      if transcribe_btn_enabled (view g) && transcribe_btn_visible (view g)
      then Some (start_transcription g) else None
  | CancelClicked late =>
      if cancel_btn_visible (view g)
      then match deliver_all late (cancel_transcription g) with
           | Ok g' => Some g'
           | Raise _ => None
           end
      else None
  | ExportClicked format file_path write_error =>
      if export_btn_enabled format (view g)
      then Some (export_result format file_path write_error g) else None
  | WorkerSignal i s =>
      match threads g !! i with
      | Some th =>
          if th_running th
          then match deliver s (if is_terminal s then thread_exits i g else g) with
               | Ok g' => Some g'
               | Raise _ => None
               end
          else None
      | None => None
      end
  end.

(** The states the window can be in. *)
Inductive reachable (cuda : bool) : GUI → Prop :=
  | reachable_init : reachable cuda (init_gui cuda)
  | reachable_step g ev g' :
      reachable cuda g → handle ev g = Some g' → reachable cuda g'.

End Display.

(** ** Observations used in the statements *)

(** The signals of a run, in the order of their emission. *)
Definition signals (log : list action) : list Signal :=
  omap (λ a, match a with Emit s => Some s | _ => None end) log.

Definition is_progress (s : Signal) : bool :=
  match s with
  | Progress _ _ => true
  | _ => false
  end.

(** The percent values of the progress events of a run. *)
Definition percents (log : list action) : list Z :=
  omap (λ a, match a with Emit (Progress v _) => Some v | _ => None end) log.

Definition is_del (variable : string) (a : action) : bool :=
  match a with
  | Del x => String.eqb x variable
  | _ => false
  end.

(** How often [del variable] is executed. *)
Definition releases (variable : string) (log : list action) : nat :=
  length (List.filter (is_del variable) log).

Definition is_read (a : action) : bool :=
  match a with
  | ReadCancelled _ => true
  | _ => false
  end.

Definition is_set_read (a : action) : bool :=
  match a with
  | ReadCancelled true => true
  | _ => false
  end.

(** The run reached the cleanup of the main model (checkpoint 98). *)
Definition reached_cleanup (log : list action) : bool :=
  existsb (Z.eqb 98) (percents log).

(** The pipeline calls of a run, in order. *)
Definition calls (log : list action) : list call :=
  omap (λ a, match a with Call c => Some c | _ => None end) log.

Definition is_gc (a : action) : bool :=
  match a with
  | GcCollect => true
  | _ => false
  end.

(** The pipeline calls that open the five stages before which [run] reads
    the flag. *)
Definition checkpoint_call (c : call) : bool :=
  match c with
  | LoadModel | LoadAudio | Transcribe | LoadAlignModel
  | NewDiarizationPipeline => true
  | _ => false
  end.

(** Action [n] of the log comes after a read of the flag that found it
    clear, with nothing but progress events in between. *)
Definition checked_before (log : list action) (n : nat) : Prop :=
  ∃ m, (m < n)%nat ∧ log !! m = Some (ReadCancelled false)
       ∧ ∀ j a, (m < j < n)%nat → log !! j = Some a
                → ∃ v msg, a = Emit (Progress v msg).

(** The same as a scan of the log: [fresh] tells whether such a read is
    pending. *)
Fixpoint guarded (fresh : bool) (log : list action) : bool :=
  match log with
  | [] => true
  | ReadCancelled b :: rest => guarded (negb b) rest
  | Emit (Progress _ _) :: rest => guarded fresh rest
  | Call c :: rest =>
      (if checkpoint_call c then fresh else true) && guarded false rest
  | _ :: rest => guarded false rest
  end.

(** Every read of the flag returns what the flag holds at that point of
    the log, and a read that finds the flag set is the last action. *)
Definition reads_obeyed (flag : nat → bool) (log : list action) : Prop :=
  ∀ n b, log !! n = Some (ReadCancelled b) →
         b = flag n ∧ (b = true → length log = S n).

Fixpoint reads_scan (flag : nat → bool) (pos : nat) (log : list action) : bool :=
  match log with
  | [] => true
  | ReadCancelled b :: rest =>
      Bool.eqb b (flag pos)
      && (if b then match rest with [] => true | _ => false end else true)
      && reads_scan flag (S pos) rest
  | _ :: rest => reads_scan flag (S pos) rest
  end.

(** The run ended with the [finished] signal. *)
Definition succeeded (log : list action) : bool :=
  match last (signals log) with
  | Some (Finished _) => true
  | _ => false
  end.

(** A pipeline in which every call returns; transcription yields one
    English segment and alignment returns the segments it was given. *)
Definition sample_result : Result :=
  {| res_language := Some "en";
     res_segments := Some [ {[ "start" := VFloat 0; "end" := VFloat 1.5;
                               "text" := VStr " Hello" ]} ] |}.

Definition sample_pipeline (cuda : bool) : Pipeline := {|
  Model := (); Audio := (); AlignModel := (); Metadata := ();
  DiarizeModel := (); DiarizeSegments := ();
  import_modules := Ok ();
  load_model := λ _ _ _, Ok ();
  load_audio := λ _, Ok ();
  audio_len := λ _, Z.to_nat 24000;
  transcribe := λ _ _ _ _, Ok sample_result;
  load_align_model := λ _ _, Ok ((), ());
  align := λ segments _ _ _ _,
    Ok {| res_language := None; res_segments := Some segments |};
  cuda_is_available := cuda;
  cuda_empty_cache := Ok ();
  DiarizationPipeline := λ _ _, Ok ();
  diarize_model := λ _ _ _ _, Ok ();
  assign_word_speakers := λ _ r, Ok r;
|}.

(** The same pipeline with an audio file that cannot be read. *)
Definition unreadable_audio_pipeline (cuda : bool) : Pipeline := {|
  Model := (); Audio := (); AlignModel := (); Metadata := ();
  DiarizeModel := (); DiarizeSegments := ();
  import_modules := Ok ();
  load_model := λ _ _ _, Ok ();
  load_audio := λ _, Raise (Exception "RuntimeError" "Failed to load audio");
  audio_len := λ _, 0%nat;
  transcribe := λ _ _ _ _, Ok sample_result;
  load_align_model := λ _ _, Ok ((), ());
  align := λ segments _ _ _ _,
    Ok {| res_language := None; res_segments := Some segments |};
  cuda_is_available := cuda;
  cuda_empty_cache := Ok ();
  DiarizationPipeline := λ _ _, Ok ();
  diarize_model := λ _ _ _ _, Ok ();
  assign_word_speakers := λ _ r, Ok r;
|}.

Definition sample_settings (align diarize : bool) (hf_token : option string)
  : Settings :=
  {| s_model := Some "small"; s_language := None; s_device := Some "cpu";
     s_compute_type := Some "int8"; s_batch_size := Some 8;
     s_align := Some align; s_diarize := Some diarize;
     s_hf_token := hf_token; s_min_speakers := None;
     s_max_speakers := None |}.

(** The flag as the worker reads it when [cancel()] is called once the
    worker has done [k] actions. *)
Definition cancelled_from (k : nat) : nat → bool := λ n, bool_decide (k ≤ n)%nat.

Definition never_cancelled : nat → bool := λ _, false.

(** *** Segments whose present values have the expected types *)

(** The number under [key], [0] when the key is absent. *)
Definition seg_number (seg : Segment) (key : string) : option Q :=
  match seg !! key with
  | None => Some 0%Q
  | Some (VInt n) => Some (inject_Z n)
  | Some (VFloat x) => Some x
  | Some _ => None
  end.

(** The text of a segment, empty when the key is absent. *)
Definition seg_text (seg : Segment) : option string :=
  match seg !! "text" with
  | None => Some ""
  | Some (VStr s) => Some s
  | Some _ => None
  end.

Definition well_typed (seg : Segment) : Prop :=
  is_Some (seg_number seg "start") ∧ is_Some (seg_number seg "end")
  ∧ is_Some (seg_text seg).

(** The SubRip block of the specification: index, time line, trimmed text,
    blank line. *)
Definition subrip_block (index : Z) (seg : Segment) : string :=
  pretty index +:+ nl
    +:+ format_time (default 0%Q (seg_number seg "start")) +:+ " --> "
    +:+ format_time (default 0%Q (seg_number seg "end")) +:+ nl
    +:+ Py.strip (default "" (seg_text seg)) +:+ nl +:+ nl.

(** The blocks of the segments, numbered from [first], one after the
    other. *)
Fixpoint subrip (first : Z) (segments : list Segment) : string :=
  match segments with
  | [] => ""
  | seg :: rest => subrip_block first seg +:+ subrip (first + 1) rest
  end.

(** The two segments of the specification's example. *)
Definition hello_world : list Segment :=
  [ {[ "start" := VInt 0; "end" := VFloat 1.5; "text" := VStr "Hello" ]};
    {[ "start" := VFloat 1.5; "end" := VInt 3; "text" := VStr "world" ]} ].

(** *** The window *)

(** Every running worker thread is the one [self.worker] names, and the
    start button is hidden while it runs. *)
Definition single_flight (g : GUI) : Prop :=
  ∀ i th, threads g !! i = Some th → th_running th = true →
          worker g = Some i ∧ transcribe_btn_visible (view g) = false.

(** The number of worker threads that are running. *)
Definition running_threads (g : GUI) : nat :=
  length (List.filter th_running (threads g)).

(** No worker thread is running. *)
Definition idle (g : GUI) : Prop :=
  ∀ i th, threads g !! i = Some th → th_running th = false.

(** The settings panel with diarization checked and no token entered. *)
Definition no_token_panel : SettingsPanel :=
  {| model_combo := "small"; language_combo := None; device_combo := "cpu";
     compute_combo := "int8"; batch_spin := 8; align_check := true;
     diarize_check := true; hf_token_input := "";
     min_speakers_spin := 0; max_speakers_spin := 0 |}.

(** A window in which a file is selected and a job is running. *)
Definition busy_gui : GUI :=
  start_transcription (on_file_selected "/tmp/a.mp3" (init_gui false)).

(** *** Further observations on a run *)

#[global] Instance call_eq_dec : EqDecision call.
Proof. solve_decision. Defined.

(** The pipeline calls of a run that goes through every stage its
    settings ask for. *)
Definition expected_calls (settings : Settings) (cuda : bool) : list call :=
  [ImportModules; LoadModel; LoadAudio; Transcribe]
  ++ (if default true (s_align settings)
      then [LoadAlignModel; Align] ++ (if cuda then [CudaEmptyCache] else [])
      else [])
  ++ (if default false (s_diarize settings)
         && str_truthy (s_hf_token settings)
      then [NewDiarizationPipeline; Diarize; AssignWordSpeakers]
      else [])
  ++ (if cuda then [CudaEmptyCache] else []).


(** A pipeline whose transcription returns a result without the
    [language] key. *)
Definition no_language_pipeline : Pipeline := {|
  Model := (); Audio := (); AlignModel := (); Metadata := ();
  DiarizeModel := (); DiarizeSegments := ();
  import_modules := Ok ();
  load_model := λ _ _ _, Ok ();
  load_audio := λ _, Ok ();
  audio_len := λ _, Z.to_nat 24000;
  transcribe := λ _ _ _ _,
    Ok {| res_language := None; res_segments := Some [] |};
  load_align_model := λ _ _, Ok ((), ());
  align := λ segments _ _ _ _,
    Ok {| res_language := None; res_segments := Some segments |};
  cuda_is_available := false;
  cuda_empty_cache := Ok ();
  DiarizationPipeline := λ _ _, Ok ();
  diarize_model := λ _ _ _ _, Ok ();
  assign_word_speakers := λ _ r, Ok r;
|}.

(** *** Further observations on the window *)

(** The start and cancel buttons and the progress group after a reset. *)
Definition buttons_reset (g : GUI) : Prop :=
  transcribe_btn_enabled (view g) = true
  ∧ transcribe_btn_visible (view g) = true
  ∧ cancel_btn_visible (view g) = false
  ∧ progress_group_visible (view g) = false.

(** Exactly one of the start and cancel buttons is shown, the progress
    group goes with the cancel button, and the export buttons are enabled
    together, only once a result is held. *)
Definition view_consistent (g : GUI) : Prop :=
  cancel_btn_visible (view g) = negb (transcribe_btn_visible (view g))
  ∧ progress_group_visible (view g) = cancel_btn_visible (view g)
  ∧ export_srt_btn_enabled (view g) = export_txt_btn_enabled (view g)
  ∧ export_json_btn_enabled (view g) = export_txt_btn_enabled (view g)
  ∧ (export_txt_btn_enabled (view g) = true → is_Some (result g)).

(** The window of [busy_gui] once its worker has delivered the sample
    result. *)
Definition completed_gui : GUI :=
  match on_transcription_complete (λ _, "") (λ _, "") sample_result busy_gui with
  | Ok g => g
  | Raise _ => busy_gui
  end.

(** *** Trimmed text *)

(** Every character of [s] is a space. *)
Fixpoint all_space (s : string) : bool :=
  match s with
  | EmptyString => true
  | String c s' => Py.isspace c && all_space s'
  end.

Definition starts_with_space (s : string) : bool :=
  match s with
  | String c _ => Py.isspace c
  | EmptyString => false
  end.

Fixpoint ends_with_space (s : string) : bool :=
  match s with
  | EmptyString => false
  | String c EmptyString => Py.isspace c
  | String _ s' => ends_with_space s'
  end.

(** [t] is [s] without the spaces at its two ends: [s] is [t] between two
    runs of spaces and [t] neither starts nor ends with a space. *)
Definition trimmed_of (s t : string) : Prop :=
  (∃ l r, s = l +:+ t +:+ r ∧ all_space l = true ∧ all_space r = true)
  ∧ starts_with_space t = false
  ∧ ends_with_space t = false.

(** The two segments of the example with spaces around their texts. *)
Definition hello_world_spaced : list Segment :=
  [ {[ "start" := VInt 0; "end" := VFloat 1.5; "text" := VStr " Hello " ]};
    {[ "start" := VFloat 1.5; "end" := VInt 3;
       "text" := VStr (String "009"%char "world" +:+ nl) ]} ].

(** Two segments that hold a text and no usable times. *)
Definition text_only_segments : list Segment :=
  [ {[ "start" := VNone; "text" := VStr " Hello" ]};
    {[ "text" := VStr "world " ]} ].

(** The binary64 number that the literal [0.57] denotes. *)
Definition float_0_57 : Q := 5134103575202365 # 9007199254740992.

(** The binary64 number [0.3 - 0.1 - 0.2], which is [- 2^-55]. *)
Definition tiny_negative : Q := Qopp (1 # 36028797018963968).

(** *** Release of the main model *)

(** The local [model] is bound once [load_model] has returned, which
    checkpoint 15 follows at once. *)
Definition model_loaded (log : list action) : bool :=
  existsb (Z.eqb 15) (percents log).

(** When [run] is left, by its end, by [return] or through the handler,
    the interpreter drops the locals that are still bound: a model that
    was loaded and not deleted loses its last reference there. *)
Definition dropped_at_exit (log : list action) : bool :=
  model_loaded log && Nat.eqb (releases "model" log) 0.

(** How often the model object is released by a run: by [del model] or
    when [run] is left. *)
Definition model_releases (log : list action) : nat :=
  (releases "model" log + (if dropped_at_exit log then 1 else 0))%nat.

Definition is_empty_cache (a : action) : bool :=
  match a with
  | Call CudaEmptyCache => true
  | _ => false
  end.

(** The cleanup that follows [del variable]: [gc.collect()] is run and
    [torch.cuda.empty_cache()] is called after the deletion. *)
Fixpoint collected_after (variable : string) (log : list action) : bool :=
  match log with
  | [] => false
  | a :: rest =>
      if is_del variable a then existsb is_gc rest
      else collected_after variable rest
  end.

Fixpoint cache_emptied_after (variable : string) (log : list action) : bool :=
  match log with
  | [] => false
  | a :: rest =>
      if is_del variable a then existsb is_empty_cache rest
      else cache_emptied_after variable rest
  end.

(** Settings that run the pipeline on the accelerator. *)
Definition cuda_settings : Settings :=
  {| s_model := Some "small"; s_language := None; s_device := Some "cuda";
     s_compute_type := Some "float16"; s_batch_size := Some 8;
     s_align := Some true; s_diarize := Some false;
     s_hf_token := None; s_min_speakers := None;
     s_max_speakers := None |}.

(** *** Exceptions that are not instances of [Exception] *)

(** The sample pipeline with a transcription that calls [sys.exit(1)]. *)
Definition exiting_pipeline : Pipeline := {|
  Model := (); Audio := (); AlignModel := (); Metadata := ();
  DiarizeModel := (); DiarizeSegments := ();
  import_modules := Ok ();
  load_model := λ _ _ _, Ok ();
  load_audio := λ _, Ok ();
  audio_len := λ _, Z.to_nat 24000;
  transcribe := λ _ _ _ _, Raise (BaseException "SystemExit" "1");
  load_align_model := λ _ _, Ok ((), ());
  align := λ segments _ _ _ _,
    Ok {| res_language := None; res_segments := Some segments |};
  cuda_is_available := false;
  cuda_empty_cache := Ok ();
  DiarizationPipeline := λ _ _, Ok ();
  diarize_model := λ _ _ _ _, Ok ();
  assign_word_speakers := λ _ r, Ok r;
|}.

(** *** The states of the specification *)

(** Modelled from the spec: the states of the orchestrator's state
    machine, [Idle → LoadingModel → LoadingAudio → Transcribing →
    [Aligning] → [Diarizing] → CleaningUp → Done]. *)
Inductive State :=
  | Idle
  | LoadingModel
  | LoadingAudio
  | Transcribing
  | Aligning
  | Diarizing
  | CleaningUp
  | Done.

(** Modelled from the spec: the action by which a run enters a state.
    A stage is entered by the pipeline call that opens it, the cleanup by
    [del model], and the run is done when it emits the result. *)
Definition enters (a : action) : option State :=
  match a with
  | Call LoadModel => Some LoadingModel
  | Call LoadAudio => Some LoadingAudio
  | Call Transcribe => Some Transcribing
  | Call LoadAlignModel => Some Aligning
  | Call NewDiarizationPipeline => Some Diarizing
  | Del x => if String.eqb x "model" then Some CleaningUp else None
  | Emit (Finished _) => Some Done
  | _ => None
  end.

(** Modelled from the spec: the state transitions of a run, by the state
    entered. *)
Definition transitions (log : list action) : list State := omap enters log.

(** Modelled from the spec: the percent values of the progress events
    emitted while the run is in each state, from [current] on. *)
Fixpoint progress_by_state (current : State) (emitted : list Z)
    (log : list action) : list (State * list Z) :=
  match log with
  | [] => [(current, emitted)]
  | a :: rest =>
      match enters a with
      | Some s => (current, emitted) :: progress_by_state s [] rest
      | None =>
          match a with
          | Emit (Progress v _) =>
              progress_by_state current (emitted ++ [v]) rest
          | _ => progress_by_state current emitted rest
          end
      end
  end.

(** *** Start requests *)

(** The message box shown when diarization is requested without a
    token. *)
Definition token_warning : Dialog :=
  Warning "Jeton HuggingFace requis"
    ("La diarisation nécessite un jeton HuggingFace." +:+ nl +:+ nl
     +:+ "Veuillez entrer votre jeton ou désactiver la diarisation.").

(** A file is selected unless the window is still as [__init__] left its
    start and cancel buttons and has started no worker. *)
Definition file_selected_once_enabled (g : GUI) : Prop :=
  str_truthy (current_file g) = true
  ∨ (transcribe_btn_enabled (view g) = false
     ∧ cancel_btn_visible (view g) = false
     ∧ threads g = []).

(** The window of [busy_gui] before its start, with diarization checked
    and no token entered. *)
Definition no_token_gui : GUI :=
  set_panel no_token_panel (on_file_selected "/tmp/a.mp3" (init_gui false)).

(** * Properties *)

(** ** Floor, remainder and truncation on rationals *)

Lemma Qfloor_div_pos (x : Q) (c : positive) :
  Qfloor (x / (Z.pos c # 1)) = Qfloor x / Z.pos c.
Proof.
  destruct x as [n d]. unfold Qdiv, Qmult, Qinv, inject_Z, Qfloor. simpl.
  rewrite Z.mul_1_r, Pos2Z.inj_mul. symmetry. apply Z.div_div; lia.
Qed.

Lemma Qfloor_sub_mul (x : Q) (c k : Z) :
  Qfloor (x - (c # 1) * inject_Z k) = Qfloor x - c * k.
Proof.
  destruct x as [n d]. unfold Qminus, Qplus, Qopp, Qmult, inject_Z, Qfloor. simpl.
  rewrite ?Pos.mul_1_r, ?Z.mul_1_r.
  replace (n + - (c * k) * Z.pos d) with (n + (- (c * k)) * Z.pos d) by ring.
  rewrite Z.div_add by lia. lia.
Qed.

Lemma int_inject_Z (z : Z) : Py.int (inject_Z z) = z.
Proof. unfold Py.int, inject_Z. simpl. apply Z.quot_1_r. Qed.

Lemma int_nonneg (x : Q) : (0 <= x)%Q → Py.int x = Qfloor x.
Proof.
  destruct x as [n d]. unfold Qle, Py.int, Qfloor. simpl. intros H.
  apply Z.quot_div_nonneg; lia.
Qed.

Lemma Qfloor_nonneg (x : Q) : (0 <= x)%Q → 0 <= Qfloor x.
Proof.
  destruct x as [n d]. unfold Qle, Qfloor. simpl. intros H.
  apply Z.div_pos; lia.
Qed.

Lemma div_pos_nonneg (x : Q) (c : positive) :
  (0 <= x)%Q → (0 <= x / (Z.pos c # 1))%Q.
Proof.
  destruct x as [n d]. unfold Qle, Qdiv, Qmult, Qinv. simpl. lia.
Qed.

Lemma fmod_nonneg (x : Q) (c : positive) :
  (0 <= x)%Q →
  Py.fmod x (Z.pos c # 1)
  = (x - (Z.pos c # 1) * inject_Z (Qfloor (x / (Z.pos c # 1))))%Q
  ∧ (0 <= Py.fmod x (Z.pos c # 1))%Q.
Proof.
  intros Hx. unfold Py.fmod.
  rewrite (int_nonneg _ (div_pos_nonneg x c Hx)). split; [reflexivity |].
  destruct x as [n d].
  unfold Qle, Qminus, Qplus, Qopp, Qmult, Qdiv, Qinv, inject_Z, Qfloor. simpl.
  rewrite !Z.mul_1_r, Pos2Z.inj_mul.
  pose proof (Z.mul_div_le n (Z.pos d * Z.pos c) ltac:(lia)). nia.
Qed.

(** On a non-negative number the remainder is the one of the floor
    division, with nothing to round. *)
Lemma mod_floor (x : Q) (c : positive) :
  (0 <= x)%Q →
  (0 <= Py.mod_ x (Z.pos c # 1))%Q
  ∧ Qfloor (Py.mod_ x (Z.pos c # 1)) = Qfloor x mod Z.pos c.
Proof.
  intros Hx. destruct (fmod_nonneg x c Hx) as [Heq Hm].
  assert (Hfl : Qfloor (Py.fmod x (Z.pos c # 1)) = Qfloor x mod Z.pos c).
  { rewrite Heq, Qfloor_sub_mul, Qfloor_div_pos, Z.mod_eq by lia.
    reflexivity. }
  unfold Py.mod_.
  destruct (Qeq_bool (Py.fmod x (Z.pos c # 1)) 0) eqn:Hz.
  - split; [discriminate |]. apply Qeq_bool_eq in Hz.
    rewrite <- Hfl, (Qfloor_comp _ _ Hz). reflexivity.
  - assert (Qle_bool 0 (Py.fmod x (Z.pos c # 1)) = true) as ->
      by (by apply Qle_bool_iff).
    assert (Qle_bool 0 (Z.pos c # 1) = true) as ->
      by (by apply Qle_bool_iff).
    simpl. done.
Qed.

Lemma int_mod (x : Q) (c : positive) :
  (0 <= x)%Q → Py.int (Py.mod_ x (Z.pos c # 1)) = Qfloor x mod Z.pos c.
Proof.
  intros Hx. destruct (mod_floor x c Hx) as [Hm Hfl].
  by rewrite int_nonneg.
Qed.







Lemma int_floordiv (x : Q) (c : positive) :
  Py.int (Py.floordiv x (Z.pos c # 1)) = Qfloor x / Z.pos c.
Proof. unfold Py.floordiv. rewrite int_inject_Z. apply Qfloor_div_pos. Qed.



(** ** Rounding to binary64 *)





















(** ** Timestamps and durations *)



(** The exact product of the float [0.57] by 1000 is below 570: the
    millisecond field is the floor of the rounded product. *)
Lemma exact_product_below_rounded :
  Qfloor (float_0_57 * 1000) = 569
  ∧ Qfloor (Py.fmul float_0_57 1000) = 570.
Proof. split; vm_compute; reflexivity. Qed.

(** C8. For a non-negative number of seconds, [format_duration] prints
    the floor of [seconds / 60] as minutes and the floor of the remainder
    as seconds, the minutes only when they are positive;
    [format_duration(125.7)] is [2m 5s] and [format_duration(45.2)] is
    [45s]. *)
Theorem format_duration_fields (seconds : Q) :
  (0 <= seconds)%Q →
  let minutes := Qfloor (seconds / 60) in
  let secs := Qfloor (seconds - 60 * inject_Z minutes) in
  format_duration seconds
    = (if 0 <? minutes
       then pretty minutes +:+ "m " +:+ pretty secs +:+ "s"
       else pretty secs +:+ "s")
  ∧ minutes = Qfloor seconds / 60
  ∧ secs = Qfloor seconds mod 60
  ∧ 0 <= minutes ∧ 0 <= secs < 60
  ∧ format_duration 125.7 = "2m 5s"
  ∧ format_duration 45.2 = "45s".
Proof.
  intros Hx minutes secs.
  assert (Hmin : minutes = Qfloor seconds / 60)
    by apply (Qfloor_div_pos seconds 60).
  assert (Hsec : secs = Qfloor seconds mod 60).
  { subst secs. rewrite (Qfloor_sub_mul seconds 60 minutes), Hmin.
    rewrite Z.mod_eq by lia. reflexivity. }
  pose proof (Qfloor_nonneg seconds Hx) as Ht.
  split.
  { unfold format_duration, Py.str_int.
    rewrite (int_floordiv seconds 60), (int_mod seconds 60 Hx), <- Hmin, <- Hsec.
    reflexivity. }
  split; [exact Hmin |]. split; [exact Hsec |].
  split; [rewrite Hmin; apply Z.div_pos; lia |].
  split; [rewrite Hsec; apply Z.mod_pos_bound; lia |].
  split; vm_compute; reflexivity.
Qed.

Lemma format_duration_fields_witness :
  format_duration 90.5 = pretty 1 +:+ "m " +:+ pretty 30 +:+ "s".
Proof.
  apply (format_duration_fields 90.5). unfold Qle. simpl. lia.
Defined.

(** ** The exporter *)

Lemma append_assoc (s1 s2 s3 : string) :
  (s1 +:+ s2) +:+ s3 = s1 +:+ (s2 +:+ s3).
Proof.
  induction s1 as [|c s1 IH]; [done |].
  change (String c ((s1 +:+ s2) +:+ s3) = String c (s1 +:+ s2 +:+ s3)).
  by rewrite IH.
Qed.

Lemma append_empty_r (s : string) : s +:+ "" = s.
Proof.
  induction s as [|c s IH]; [done |].
  change (String c (s +:+ "") = String c s). by rewrite IH.
Qed.

Lemma format_time_val_number (seg : Segment) (key : string) (x : Q) :
  seg_number seg key = Some x →
  format_time_val (dict_get seg key (VInt 0)) = Ok (format_time x).
Proof.
  unfold seg_number, dict_get. destruct (seg !! key) as [[| n | y | s]|];
    simpl; intros H; inversion H; reflexivity.
Qed.

Lemma val_strip_text (seg : Segment) (s : string) :
  seg_text seg = Some s →
  val_strip (dict_get seg "text" (VStr "")) = Ok (Py.strip s).
Proof.
  unfold seg_text, dict_get. destruct (seg !! "text") as [[| n | y | s']|];
    simpl; intros H; inversion H; reflexivity.
Qed.

Lemma srt_block_well_typed (i : Z) (seg : Segment) :
  well_typed seg → srt_block i seg = Ok (subrip_block i seg).
Proof.
  intros ([x Hx] & [y Hy] & [s Hs]). unfold srt_block, subrip_block.
  rewrite (format_time_val_number seg "start" x Hx),
    (format_time_val_number seg "end" y Hy), (val_strip_text seg s Hs).
  rewrite Hx, Hy, Hs. reflexivity.
Qed.

Lemma srt_loop_well_typed (segments : list Segment) :
  Forall well_typed segments →
  ∀ i acc, srt_loop i segments acc = Ok (acc +:+ subrip i segments).
Proof.
  induction 1 as [|seg rest Hseg _ IH]; intros i acc; simpl.
  - by rewrite append_empty_r.
  - rewrite (srt_block_well_typed i seg Hseg). simpl.
    rewrite IH, append_assoc. reflexivity.
Qed.

Lemma join_items_texts (segments : list Segment) :
  Forall (λ seg, is_Some (seg_text seg)) segments →
  ∀ i, join_items i (segment_texts segments)
       = Ok ((λ seg, default "" (seg_text seg)) <$> segments).
Proof.
  induction 1 as [|seg rest [s Hs] _ IH]; intros i; simpl; [done |].
  unfold dict_get. unfold seg_text in Hs.
  destruct (seg !! "text") as [[| n | y | s']|] eqn:E;
    simpl in *; try discriminate.
  - rewrite (IH (S i)). simpl. unfold seg_text. rewrite E. reflexivity.
  - rewrite (IH (S i)). simpl. unfold seg_text. rewrite E. reflexivity.
Qed.

Lemma join_items_well_typed (segments : list Segment) :
  Forall well_typed segments →
  ∀ i, join_items i (segment_texts segments)
       = Ok ((λ seg, default "" (seg_text seg)) <$> segments).
Proof.
  intros Hwt. apply join_items_texts.
  eapply Forall_impl; [exact Hwt |]. by intros seg (_ & _ & Hs).
Qed.


(** *** Trimming *)

Lemma lstrip_spec (s : string) :
  ∃ l, s = l +:+ Py.lstrip s ∧ all_space l = true
       ∧ starts_with_space (Py.lstrip s) = false.
Proof.
  induction s as [|c s (l & Hs & Hl & Hstart)]; [by exists "" |].
  simpl. destruct (Py.isspace c) eqn:Hc.
  - exists (String c l). split; [| split; [| done]].
    + change (String c s = String c (l +:+ Py.lstrip s)). by rewrite <- Hs.
    + simpl. by rewrite Hc, Hl.
  - exists "". split; [done |]. split; [done |]. simpl. exact Hc.
Qed.

Lemma rstrip_spec (s : string) :
  ∃ r, s = Py.rstrip s +:+ r ∧ all_space r = true
       ∧ ends_with_space (Py.rstrip s) = false
       ∧ (starts_with_space s = false
          → starts_with_space (Py.rstrip s) = false).
Proof.
  induction s as [|c s (r & Hs & Hr & Hend & _)]; [by exists "" |].
  simpl. destruct (Py.rstrip s) as [|c' t] eqn:Hrs.
  - destruct (Py.isspace c) eqn:Hc.
    + exists (String c r). split; [| split; [| done]].
      * change (String c s = String c r). by rewrite Hs.
      * simpl. by rewrite Hc, Hr.
    + exists r. split; [| split; [done |]].
      * change (String c s = String c ("" +:+ r)). by rewrite <- Hs.
      * simpl. by rewrite Hc.
  - exists r. split; [| split; [done |]].
    + change (String c s = String c (String c' t +:+ r)). by rewrite <- Hs.
    + split; [exact Hend | done].
Qed.

(** [strip] removes the spaces at both ends and nothing else. *)
Lemma strip_trimmed (s : string) : trimmed_of s (Py.strip s).
Proof.
  unfold Py.strip.
  destruct (lstrip_spec s) as (l & Hs & Hl & Hstart).
  destruct (rstrip_spec (Py.lstrip s)) as (r & Ht & Hr & Hend & Hkeep).
  split; [| split; [by apply Hkeep | exact Hend]].
  exists l, r. split; [| done]. by rewrite <- Ht.
Qed.

(** C6. For a result whose segments hold numbers under [start] and [end]
    and a string under [text] (or lack the key), the [srt] export writes
    to the chosen file the blocks of the segments in their order, numbered
    from 1: index, [start --> end] with both times printed by
    [format_time], trimmed text, blank line.  The trimmed text is the text
    without the spaces at its two ends.  For the two segments of the
    example the text written is the one the specification gives, also when
    their texts come with spaces around them. *)
Theorem srt_export_blocks (json_dumps : Result → string) (g : GUI)
    (r : Result) (segments : list Segment) (file_path : string) :
  result g = Some r →
  res_segments r = Some segments →
  Forall well_typed segments →
  file_path ≠ "" →
  srt_content r = Ok (subrip 1 segments)
  ∧ files (export_result json_dumps "srt" file_path None g) !! file_path
    = Some (subrip 1 segments)
  ∧ (∀ i seg rest, subrip i (seg :: rest)
       = pretty i +:+ nl
           +:+ format_time (default 0%Q (seg_number seg "start")) +:+ " --> "
           +:+ format_time (default 0%Q (seg_number seg "end")) +:+ nl
           +:+ Py.strip (default "" (seg_text seg)) +:+ nl +:+ nl
           +:+ subrip (i + 1) rest)
  ∧ (∀ text, trimmed_of text (Py.strip text))
  ∧ subrip 1 hello_world = "1
00:00:00,000 --> 00:00:01,500
Hello

2
00:00:01,500 --> 00:00:03,000
world

"
  ∧ subrip 1 hello_world_spaced = subrip 1 hello_world.
Proof.
  intros Hres Hsegs Hwt Hpath.
  assert (Hsrt : srt_content r = Ok (subrip 1 segments)).
  { unfold srt_content. rewrite Hsegs. simpl.
    by rewrite (srt_loop_well_typed segments Hwt 1 ""). }
  split; [exact Hsrt |]. split; [| split; [| split; [| split]]].
  - unfold export_result. rewrite Hres.
    assert (result_truthy r = true) as ->.
    { unfold result_truthy. rewrite Hsegs.
      rewrite (bool_decide_eq_true_2 (is_Some (Some segments))) by eauto.
      apply orb_true_r. }
    destruct file_path as [|c p]; [done |]. simpl.
    rewrite Hsrt. simpl. apply lookup_insert_eq.
  - intros i seg rest.
    change (subrip i (seg :: rest))
      with (subrip_block i seg +:+ subrip (i + 1) rest).
    unfold subrip_block. rewrite !append_assoc. reflexivity.
  - apply strip_trimmed.
  - vm_compute. reflexivity.
  - vm_compute. reflexivity.
Qed.

Lemma srt_export_blocks_witness :
  srt_content {| res_language := Some "en";
                 res_segments := Some hello_world_spaced |}
  = Ok (subrip 1 hello_world_spaced).
Proof.
  apply (srt_export_blocks (λ _, "") 
           {| current_file := None; worker := None;
              result := Some {| res_language := Some "en";
                                res_segments := Some hello_world_spaced |};
              panel := panel (init_gui false); view := view (init_gui false);
              threads := []; dialogs := []; files := ∅ |}
           {| res_language := Some "en";
              res_segments := Some hello_world_spaced |}
           hello_world_spaced "out.srt").
  - reflexivity.
  - reflexivity.
  - repeat constructor; vm_compute; eauto.
  - discriminate.
Defined.

Lemma dict_get_insert_eq (seg : Segment) (key : string) (v : pyval) :
  seg !! key = None → dict_get (<[key := v]> seg) key v = dict_get seg key v.
Proof. intros H. unfold dict_get. by rewrite lookup_insert_eq, H. Qed.

Lemma dict_get_insert_ne (seg : Segment) (key k : string) (v d : pyval) :
  key ≠ k → dict_get (<[key := v]> seg) k d = dict_get seg k d.
Proof. intros H. unfold dict_get. by rewrite lookup_insert_ne. Qed.

(** C10. Neither export raises on absent segment fields: when every
    segment holds numbers under [start] and [end] and a string under
    [text], or lacks the key, both the text and the [srt] content are
    computed; an absent [text] counts as the empty string, an absent
    [start] or [end] as [0]. *)
Theorem export_defaults_for_missing_fields (r : Result) :
  Forall well_typed (default [] (res_segments r)) →
  (∃ text, txt_content r = Ok text)
  ∧ (∃ content, srt_content r = Ok content)
  ∧ (∀ (seg : Segment) (i : Z),
       (seg !! "text" = None →
          segment_texts [seg] = [VStr ""]
          ∧ srt_block i seg = srt_block i (<["text" := VStr ""]> seg))
       ∧ (seg !! "start" = None →
          srt_block i seg = srt_block i (<["start" := VInt 0]> seg))
       ∧ (seg !! "end" = None →
          srt_block i seg = srt_block i (<["end" := VInt 0]> seg)))
  ∧ srt_block 1 ∅
    = Ok ("1" +:+ nl +:+ "00:00:00,000 --> 00:00:00,000" +:+ nl
            +:+ "" +:+ nl +:+ nl)
  ∧ txt_content {| res_language := None; res_segments := Some [∅] |} = Ok "".
Proof.
  intros Hwt. split; [| split; [| split; [| split]]].
  - unfold txt_content, val_join.
    rewrite (join_items_well_typed _ Hwt 0%nat). simpl. eauto.
  - unfold srt_content. rewrite (srt_loop_well_typed _ Hwt 1 ""). eauto.
  - intros seg i. split; [| split]; intros Hnone.
    + split.
      * unfold segment_texts, dict_get. simpl. by rewrite Hnone.
      * unfold srt_block.
        rewrite (dict_get_insert_eq seg "text" (VStr "") Hnone).
        rewrite !(dict_get_insert_ne seg "text") by done. reflexivity.
    + unfold srt_block.
      rewrite (dict_get_insert_eq seg "start" (VInt 0) Hnone).
      rewrite !(dict_get_insert_ne seg "start") by done. reflexivity.
    + unfold srt_block.
      rewrite (dict_get_insert_eq seg "end" (VInt 0) Hnone).
      rewrite !(dict_get_insert_ne seg "end") by done. reflexivity.
  - vm_compute. reflexivity.
  - vm_compute. reflexivity.
Qed.

Lemma export_defaults_for_missing_fields_witness :
  ∃ content,
    srt_content {| res_language := None;
                   res_segments := Some [ {[ "end" := VFloat 2.5 ]}; ∅ ] |}
    = Ok content.
Proof.
  apply (export_defaults_for_missing_fields
           {| res_language := None;
              res_segments := Some [ {[ "end" := VFloat 2.5 ]}; ∅ ] |}).
  repeat constructor; vm_compute; eauto.
Defined.

(** ** The worker *)

Arguments format_duration : simpl never.
Arguments Py.str_int : simpl never.
Arguments Py.fdiv : simpl never.

(** Symbolic execution of [run]: case analysis on what each pipeline call
    returns, on each read of the flag and on the settings that are
    tested. *)
Ltac run_case :=
  match goal with
  | |- context [match ?x with _ => _ end] =>
      lazymatch x with
      | context [match _ with _ => _ end] => fail
      | _ => destruct x eqn:?
      end
  end.

Ltac run_cases :=
  match goal with
  | |- context [run ?env ?flag ?file ?settings []] =>
      pattern (run env flag file settings [])
  | |- context [run_body ?env ?flag ?file ?settings []] =>
      pattern (run_body env flag file settings [])
  end;
  let post := fresh "post" in
  match goal with |- ?P _ => set (post := P) end;
  unfold run, try_except, run_body, cleanup, subscript, raise, KeyError, emit,
    act, do_call, check_cancelled;
  unfold mbind, Run_bind, mret, Run_ret;
  repeat (run_case; cbn [length app Nat.add] in * );
  subst post; cbv beta.

Lemma signals_app (l1 l2 : list action) :
  signals (l1 ++ l2) = signals l1 ++ signals l2.
Proof. unfold signals. apply omap_app. Qed.

Lemma reads_scan_sound (flag : nat → bool) (log : list action) :
  ∀ pos, reads_scan flag pos log = true →
  ∀ n b, log !! n = Some (ReadCancelled b) →
         b = flag (pos + n)%nat ∧ (b = true → length log = S n).
Proof.
  induction log as [|a rest IH]; intros pos Hscan n b Hn; [done |].
  destruct n as [|n].
  - simpl in Hn. inversion Hn; subst a. simpl in Hscan.
    apply andb_prop in Hscan as [Hscan _]. apply andb_prop in Hscan as [Hb Hlast].
    rewrite Nat.add_0_r. split; [by apply Bool.eqb_prop |].
    intros ->. by destruct rest.
  - simpl in Hn.
    assert (Hrest : reads_scan flag (S pos) rest = true).
    { destruct a; simpl in Hscan; try done.
      by apply andb_prop in Hscan as [_ Hscan]. }
    destruct (IH (S pos) Hrest n b Hn) as [Hb Hlen].
    replace (pos + S n)%nat with (S pos + n)%nat by lia.
    split; [done |]. intros Hb'. simpl. by rewrite (Hlen Hb').
Qed.

Lemma reads_scan_obeyed (flag : nat → bool) (log : list action) :
  reads_scan flag 0 log = true → reads_obeyed flag log.
Proof. intros H n b Hn. by apply (reads_scan_sound flag log 0%nat H). Qed.

Lemma checked_before_app (pre rest : list action) :
  checked_before pre (length pre) → checked_before (pre ++ rest) (length pre).
Proof.
  intros (m & Hm & Hread & Hbetween). exists m. split; [done |]. split.
  - by rewrite lookup_app_l.
  - intros j a Hj Ha. rewrite lookup_app_l in Ha by lia. eauto.
Qed.

Lemma checked_before_read (pre : list action) :
  checked_before (pre ++ [ReadCancelled false]) (S (length pre)).
Proof.
  exists (length pre). split; [lia |]. split.
  - rewrite lookup_app_r by lia. by rewrite Nat.sub_diag.
  - intros j a Hj. lia.
Qed.

Lemma checked_before_progress (pre : list action) (v : Z) (msg : string) :
  checked_before pre (length pre) →
  checked_before (pre ++ [Emit (Progress v msg)]) (S (length pre)).
Proof.
  intros (m & Hm & Hread & Hbetween). exists m. split; [lia |]. split.
  - by rewrite lookup_app_l.
  - intros j a Hj Ha. destruct (decide (j = length pre)) as [-> | Hne].
    + rewrite lookup_app_r, Nat.sub_diag in Ha by lia.
      inversion Ha. eauto.
    + rewrite lookup_app_l in Ha by lia. apply (Hbetween j a); [lia | done].
Qed.

Lemma guarded_sound (log : list action) :
  ∀ (pre : list action) (fresh : bool),
    guarded fresh log = true →
    (fresh = true → checked_before pre (length pre)) →
    ∀ n c, log !! n = Some (Call c) → checkpoint_call c = true →
           checked_before (pre ++ log) (length pre + n).
Proof.
  induction log as [|a rest IH]; intros pre fresh Hg Hfresh n c Hn Hc; [done |].
  destruct n as [|n].
  - simpl in Hn. inversion Hn; subst a. simpl in Hg. rewrite Hc in Hg.
    apply andb_prop in Hg as [-> _]. rewrite Nat.add_0_r.
    by apply checked_before_app, Hfresh.
  - simpl in Hn.
    replace (pre ++ a :: rest) with ((pre ++ [a]) ++ rest)
      by (by rewrite <- app_assoc).
    replace (length pre + S n)%nat with (length (pre ++ [a]) + n)%nat
      by (rewrite length_app; simpl; lia).
    destruct a as [[v msg | r | msg] | b | c' | x |]; simpl in Hg.
    + refine (IH _ fresh Hg _ n c Hn Hc).
      intros Hf. rewrite length_app, Nat.add_1_r.
      by apply checked_before_progress, Hfresh.
    + by refine (IH _ false Hg _ n c Hn Hc).
    + by refine (IH _ false Hg _ n c Hn Hc).
    + refine (IH _ (negb b) Hg _ n c Hn Hc).
      intros Hb. destruct b; [done |].
      rewrite length_app, Nat.add_1_r. apply checked_before_read.
    + apply andb_prop in Hg as [_ Hg]. by refine (IH _ false Hg _ n c Hn Hc).
    + by refine (IH _ false Hg _ n c Hn Hc).
    + by refine (IH _ false Hg _ n c Hn Hc).
Qed.

Lemma guarded_checked (log : list action) :
  guarded false log = true →
  ∀ n c, log !! n = Some (Call c) → checkpoint_call c = true →
         checked_before log n.
Proof.
  intros Hg n c Hn Hc.
  by refine (guarded_sound log [] false Hg _ n c Hn Hc).
Qed.

(** The signals of the body of [run]: progress events only, closed by the
    result when the body runs to its end. *)
Lemma run_body_signals (env : Pipeline) (flag : nat → bool)
    (audio_file : string) (settings : Settings) :
  let body := run_body env flag audio_file settings [] in
  match body.1 with
  | Normal _ =>
      ∃ r, signals body.2
           = List.filter is_progress (signals body.2) ++ [Finished r]
  | _ => forallb is_progress (signals body.2) = true
  end.
Proof.
  intros body. subst body. run_cases; cbn; eauto.
Qed.

(** C5, as the code has it.  An exception raised in [run] that is an
    instance of [Exception], whatever the stage, is caught: [run] ends
    normally, having emitted one [error] signal carrying [str(e)], last,
    after progress events only, so no result is emitted.  An exception
    that is not an instance of [Exception] is the only thing that leaves
    [run]: it is not caught and no [error] signal is emitted.  Without an
    exception no [error] signal is emitted. *)
Theorem worker_exceptions_become_one_error (env : Pipeline)
    (flag : nat → bool) (audio_file : string) (settings : Settings) :
  let body := run_body env flag audio_file settings [] in
  let r := run env flag audio_file settings [] in
  (∀ cls msg, body.1 = Raised (Exception cls msg) →
     r = (Normal (), body.2 ++ [Emit (Error msg)])
     ∧ signals r.2 = signals body.2 ++ [Error msg]
     ∧ forallb is_progress (signals body.2) = true)
  ∧ (∀ e, r.1 = Raised e →
       (∃ cls msg, e = BaseException cls msg)
       ∧ r = body
       ∧ forallb is_progress (signals r.2) = true)
  ∧ ((∀ e, body.1 ≠ Raised e) →
       r = body ∧ ∀ msg, Error msg ∉ signals r.2).
Proof.
  intros body r.
  pose proof (run_body_signals env flag audio_file settings) as Hsig.
  fold body in Hsig. subst r. unfold run, try_except. fold body.
  destruct body as [[[] | | [cls msg | cls msg]] log] eqn:Hbody; simpl in *.
  - split; [done |]. split; [done |]. intros _. split; [done |].
    destruct Hsig as [res Hres]. intros msg Hin. rewrite Hres in Hin.
    apply elem_of_app in Hin as [Hin | Hin].
    + apply list_elem_of_In, filter_In in Hin as [_ Hin]. done.
    + apply list_elem_of_singleton in Hin. done.
  - split; [done |]. split; [done |]. intros _. split; [done |].
    intros msg Hin. apply list_elem_of_In in Hin.
    rewrite forallb_forall in Hsig. by apply Hsig in Hin.
  - split; [| split; [done |]].
    + intros cls' msg' [= <- <-]. split; [done |]. split; [| done].
      by rewrite signals_app.
    + intros Hno. by destruct (Hno (Exception cls msg)).
  - split; [done |]. split.
    + intros e [= <-]. split; [eauto |]. split; [done | exact Hsig].
    + intros Hno. by destruct (Hno (BaseException cls msg)).
Qed.

Lemma worker_exceptions_become_one_error_witness :
  run (unreadable_audio_pipeline false) never_cancelled "a.mp3"
      (sample_settings true false None) []
  = (Normal (),
     (run_body (unreadable_audio_pipeline false) never_cancelled "a.mp3"
        (sample_settings true false None) []).2
     ++ [Emit (Error "Failed to load audio")]).
Proof.
  apply (proj1 (worker_exceptions_become_one_error
           (unreadable_audio_pipeline false) never_cancelled "a.mp3"
           (sample_settings true false None))
           "RuntimeError" "Failed to load audio").
  reflexivity.
Defined.

(** C5, counterexample.  The transcription call raises [SystemExit]
    (a call of [sys.exit(1)] inside the pipeline).  The handler does not
    catch it: the exception leaves [run], and the run has emitted four
    progress events and no [error] signal. *)
Lemma system_exit_leaves_the_worker :
  let r := run exiting_pipeline never_cancelled "a.mp3"
             (sample_settings true false None) [] in
  r.1 = Raised (BaseException "SystemExit" "1")
  ∧ calls r.2 = [ImportModules; LoadModel; LoadAudio; Transcribe]
  ∧ percents r.2 = [5; 15; 20; 25]
  ∧ forallb is_progress (signals r.2) = true.
Proof. vm_compute. repeat split; reflexivity. Qed.

(** C9, as the code has it.  On a run that ends with the result the
    percent values of the progress events are 5, 15, 20, 25, 50, then 55,
    65, 75 with alignment or 75 without, then 80, 85, 95 with diarization,
    95 without, nothing when diarization is requested without a token,
    then 98 and 100.  They never decrease and none is repeated, and the
    result is the last signal, after progress events only.  The events are
    tied to these checkpoints, not to the state transitions. *)
Theorem success_progress_checkpoints (env : Pipeline) (flag : nat → bool)
    (audio_file : string) (settings : Settings) :
  let log := (run env flag audio_file settings []).2 in
  succeeded log = true →
  percents log
    = [5; 15; 20; 25; 50]
        ++ (if default true (s_align settings) then [55; 65; 75] else [75])
        ++ (if default false (s_diarize settings)
            then if str_truthy (s_hf_token settings) then [80; 85; 95] else []
            else [95])
        ++ [98; 100]
  ∧ Sorted Z.le (percents log)
  ∧ NoDup (percents log)
  ∧ ∃ r, signals log = List.filter is_progress (signals log) ++ [Finished r].
Proof.
  intros log. subst log. run_cases; cbn; intros Hsucc; try discriminate Hsucc.
  all: split; [reflexivity |].
  all: split; [repeat constructor; lia |].
  all: split; [apply (bool_decide_unpack _); vm_compute; reflexivity | eauto].
Qed.

Lemma success_progress_checkpoints_witness :
  percents (run (sample_pipeline true) never_cancelled "a.mp3"
              (sample_settings true true (Some "hf_token")) []).2
  = [5; 15; 20; 25; 50; 55; 65; 75; 80; 85; 95; 98; 100].
Proof.
  apply (success_progress_checkpoints (sample_pipeline true) never_cancelled
           "a.mp3" (sample_settings true true (Some "hf_token"))).
  vm_compute. reflexivity.
Defined.

(** C9, counterexample.  A successful run with alignment and diarization
    goes through the seven state transitions of the specification and
    emits thirteen progress events: two are emitted while the audio is
    loaded and while the transcription runs, three during the alignment
    and during the diarization.  A successful run without alignment, with
    diarization requested and no token, makes five transitions and emits
    eight events, three of them between the transcription and the
    cleanup. *)
Lemma progress_events_not_one_per_transition :
  (let log := (run (sample_pipeline false) never_cancelled "a.mp3"
                 (sample_settings true true (Some "hf_token")) []).2 in
   succeeded log = true
   ∧ transitions log
     = [LoadingModel; LoadingAudio; Transcribing; Aligning; Diarizing;
        CleaningUp; Done]
   ∧ length (percents log) = 13%nat
   ∧ progress_by_state Idle [] log
     = [(Idle, [5]); (LoadingModel, [15]); (LoadingAudio, [20; 25]);
        (Transcribing, [50; 55]); (Aligning, [65; 75; 80]);
        (Diarizing, [85; 95; 98]); (CleaningUp, [100]); (Done, [])])
  ∧ (let log := (run (sample_pipeline false) never_cancelled "a.mp3"
                   (sample_settings false true None) []).2 in
     succeeded log = true
     ∧ transitions log
       = [LoadingModel; LoadingAudio; Transcribing; CleaningUp; Done]
     ∧ length (percents log) = 8%nat
     ∧ progress_by_state Idle [] log
       = [(Idle, [5]); (LoadingModel, [15]); (LoadingAudio, [20; 25]);
          (Transcribing, [50; 75; 98]); (CleaningUp, [100]); (Done, [])]).
Proof. vm_compute. repeat split; reflexivity. Qed.

Ltac use_flag :=
  repeat match goal with
         | H : _ = true |- _ => rewrite H
         | H : _ = false |- _ => rewrite H
         end.

Lemma no_set_read (log : list action) (n : nat) :
  existsb is_set_read log = false → log !! n ≠ Some (ReadCancelled true).
Proof.
  intros Hnone Hn. apply list_elem_of_lookup_2, list_elem_of_In in Hn.
  assert (existsb is_set_read log = true) as Hsome
    by (apply existsb_exists; eauto).
  congruence.
Qed.

(** C3, as the code has it.  [run] reads the flag at five checkpoints
    only, before it enters model loading, audio loading, transcription,
    alignment and diarization: each of the calls that open these stages
    comes after a read that found the flag clear, with progress events
    only in between, and no run reads the flag more than five times.  A
    read that finds the flag set ends the run at once: it is the last
    action, so no progress, result or error follows, and [run] returns. *)
Theorem cancellation_checkpoints (env : Pipeline) (flag : nat → bool)
    (audio_file : string) (settings : Settings) :
  let r := run env flag audio_file settings [] in
  reads_obeyed flag r.2
  ∧ (∀ n, r.2 !! n = Some (ReadCancelled true) → r.1 = Returned)
  ∧ (∀ n c, r.2 !! n = Some (Call c) → checkpoint_call c = true →
            checked_before r.2 n)
  ∧ (length (List.filter is_read r.2) ≤ 5)%nat.
Proof.
  intros r. subst r. run_cases; cbn [fst snd].
  all: split; [apply reads_scan_obeyed; cbn; use_flag; reflexivity |].
  all: split;
    [intros n Hn; first [reflexivity | by apply no_set_read in Hn] |].
  all: split; [apply guarded_checked; reflexivity | cbn; lia].
Qed.

Lemma cancellation_checkpoints_witness :
  checked_before
    (run (sample_pipeline false) never_cancelled "a.mp3"
       (sample_settings true false None) []).2 3.
Proof.
  apply (proj1 (proj2 (proj2 (cancellation_checkpoints (sample_pipeline false)
           never_cancelled "a.mp3" (sample_settings true false None))))
           3%nat LoadModel); reflexivity.
Defined.

(** C3, counterexample.  The flag is set while the diarization call is in
    progress (after the 25 actions up to that call).  No read of the flag
    follows: the run goes on to the cleanup and to its end, with the
    progress events 95, 98 and 100 and the result. *)
Lemma cancel_during_diarization_not_observed :
  let flag := cancelled_from 25 in
  let log := (run (sample_pipeline false) flag "a.mp3"
                (sample_settings true true (Some "hf_token")) []).2 in
  log !! 24%nat = Some (Call Diarize)
  ∧ flag 25%nat = true
  ∧ List.filter is_read (drop 25 log) = []
  ∧ percents (drop 25 log) = [95; 98; 100]
  ∧ succeeded log = true.
Proof. vm_compute. repeat split; reflexivity. Qed.

(** C1, what the code does.  The object bound to [model] is released
    once on every run that loaded it, by [del model] or when [run] is
    left, and never on a run that did not load it.  But the cleanup that
    goes with the release, [gc.collect()] and, when CUDA is available,
    [torch.cuda.empty_cache()], is executed only on a run that reaches the
    cleanup checkpoint (98), as every run that ends with the result does.
    On the accelerator, a run cancelled after the model is loaded and a run
    that fails after the model is loaded both end without collecting and
    without emptying the accelerator cache. *)
Theorem cache_release_only_on_success :
  (∀ (env : Pipeline) (flag : nat → bool) (audio_file : string)
     (settings : Settings),
     let log := (run env flag audio_file settings []).2 in
     model_releases log = (if model_loaded log then 1%nat else 0%nat)
     ∧ releases "model" log = (if reached_cleanup log then 1%nat else 0%nat)
     ∧ collected_after "model" log = reached_cleanup log
     ∧ cache_emptied_after "model" log
       = reached_cleanup log && cuda_is_available env
     ∧ (if succeeded log then reached_cleanup log = true else True))
  ∧ (let cancelled :=
       (run (sample_pipeline true) (cancelled_from 4) "a.mp3"
          cuda_settings []).2 in
     calls cancelled = [ImportModules; LoadModel]
     ∧ last cancelled = Some (ReadCancelled true)
     ∧ model_loaded cancelled = true
     ∧ model_releases cancelled = 1%nat
     ∧ List.filter is_gc cancelled = []
     ∧ List.filter is_empty_cache cancelled = [])
  ∧ (let failed :=
       (run (unreadable_audio_pipeline true) never_cancelled "a.mp3"
          cuda_settings []).2 in
     calls failed = [ImportModules; LoadModel; LoadAudio]
     ∧ last failed = Some (Emit (Error "Failed to load audio"))
     ∧ model_loaded failed = true
     ∧ model_releases failed = 1%nat
     ∧ List.filter is_gc failed = []
     ∧ List.filter is_empty_cache failed = [])
  ∧ (let completed :=
       (run (sample_pipeline true) never_cancelled "a.mp3"
          cuda_settings []).2 in
     succeeded completed = true
     ∧ model_releases completed = 1%nat
     ∧ collected_after "model" completed = true
     ∧ cache_emptied_after "model" completed = true).
Proof.
  split; [| split; [| split]].
  - intros env flag audio_file settings log. subst log.
    run_cases; repeat split; reflexivity.
  - vm_compute. repeat split; reflexivity.
  - vm_compute. repeat split; reflexivity.
  - vm_compute. repeat split; reflexivity.
Qed.

(** ** The job controller *)

Lemma idle_single_flight (g : GUI) : idle g → single_flight g.
Proof. intros Hidle i th Hi Hrun. rewrite (Hidle i th Hi) in Hrun. done. Qed.

Lemma filter_none {A} (f : A → bool) (l : list A) :
  (∀ i x, l !! i = Some x → f x = false) → List.filter f l = [].
Proof.
  induction l as [|a l IH]; intros H; [done |]. simpl.
  rewrite (H 0%nat a eq_refl). apply IH. intros i x Hi. apply (H (S i) x Hi).
Qed.

Lemma filter_at_most_one {A} (f : A → bool) (l : list A) :
  ∀ k, (∀ i x, l !! i = Some x → f x = true → i = k) →
       (length (List.filter f l) ≤ 1)%nat.
Proof.
  induction l as [|a l IH]; intros k H; simpl; [lia |].
  destruct (f a) eqn:Hfa.
  - simpl. rewrite filter_none; [simpl; lia |].
    intros i x Hi. destruct (f x) eqn:Hfx; [| done].
    pose proof (H 0%nat a eq_refl Hfa). pose proof (H (S i) x Hi Hfx). lia.
  - apply (IH (pred k)). intros i x Hi Hfx.
    pose proof (H (S i) x Hi Hfx). lia.
Qed.

Lemma single_flight_at_most_one (g : GUI) :
  single_flight g → (running_threads g ≤ 1)%nat.
Proof.
  intros Hsf. unfold running_threads.
  destruct (worker g) as [k|] eqn:Hw.
  - apply (filter_at_most_one th_running (threads g) k).
    intros i th Hi Hrun. destruct (Hsf i th Hi Hrun) as [Hwi _]. congruence.
  - rewrite filter_none; [simpl; lia |].
    intros i th Hi. destruct (th_running th) eqn:Hrun; [| done].
    destruct (Hsf i th Hi Hrun) as [Hwi _]. congruence.
Qed.

Lemma running_hidden (g : GUI) :
  single_flight g → running_threads g = 1%nat →
  transcribe_btn_visible (view g) = false.
Proof.
  intros Hsf Hone. unfold running_threads in Hone.
  destruct (List.filter th_running (threads g)) as [|th l] eqn:Hf; [done |].
  assert (In th (List.filter th_running (threads g))) as Hin
    by (rewrite Hf; left; done).
  apply filter_In in Hin as [Hin Hrun].
  apply list_elem_of_In, list_elem_of_lookup in Hin as [i Hi].
  by destruct (Hsf i th Hi Hrun).
Qed.

Section Window.

Variable json_dumps : Result → string.
Variable str_float : Q → string.

Lemma complete_keeps_threads (r : Result) (g g' : GUI) :
  on_transcription_complete json_dumps str_float r g = Ok g' →
  threads g' = threads g.
Proof.
  unfold on_transcription_complete. intros H.
  destruct (res_segments r) as [segments|]; simpl in H.
  - destruct (val_join " " (segment_texts segments)); simpl in H; [| done].
    destruct (segment_lines str_float segments ""); simpl in H; [| done].
    by inversion H.
  - by inversion H.
Qed.

Lemma deliver_keeps_threads (s : Signal) (g g' : GUI) :
  deliver json_dumps str_float s g = Ok g' → threads g' = threads g.
Proof.
  destruct s as [v msg | r | msg]; simpl; intros H.
  - by inversion H.
  - by apply complete_keeps_threads in H.
  - by inversion H.
Qed.

Lemma deliver_all_keeps_threads (l : list Signal) :
  ∀ g g', deliver_all json_dumps str_float l g = Ok g' →
          threads g' = threads g.
Proof.
  induction l as [|s l IH]; intros g g' H; simpl in H.
  - by inversion H.
  - destruct (deliver json_dumps str_float s g) as [g1|] eqn:Hd;
      simpl in H; [| done].
    rewrite (IH g1 g' H). by apply deliver_keeps_threads in Hd.
Qed.

Lemma idle_threads (g g' : GUI) :
  threads g' = threads g → idle g → idle g'.
Proof. unfold idle. intros ->. done. Qed.

Lemma cancel_idle (g : GUI) :
  single_flight g → idle (cancel_transcription g).
Proof.
  intros Hsf i th. unfold cancel_transcription. simpl.
  destruct (worker g) as [k|] eqn:Hw; simpl.
  - intros Hi. destruct (decide (i = k)) as [-> | Hne].
    + rewrite list_lookup_alter in Hi.
      rewrite decide_True in Hi by done.
      destruct (threads g !! k); by simplify_eq/=.
    + rewrite list_lookup_alter_ne in Hi by done.
      destruct (th_running th) eqn:Hrun; [| done].
      destruct (Hsf i th Hi Hrun) as [Hwi _]. congruence.
  - intros Hi. destruct (th_running th) eqn:Hrun; [| done].
    destruct (Hsf i th Hi Hrun) as [Hwi _]. congruence.
Qed.

Lemma exit_idle (i : nat) (g : GUI) :
  single_flight g → is_Some (threads g !! i) →
  (∀ th, threads g !! i = Some th → th_running th = true) →
  idle (thread_exits i g).
Proof.
  intros Hsf [th0 Hth0] Hrun0 j th. simpl.
  destruct (Hsf i th0 Hth0 (Hrun0 th0 Hth0)) as [Hw _].
  destruct (decide (j = i)) as [-> | Hne].
  - rewrite list_lookup_alter, decide_True, Hth0 by done.
    intros H. by simplify_eq/=.
  - rewrite list_lookup_alter_ne by done. intros Hj.
    destruct (th_running th) eqn:Hrun; [| done].
    destruct (Hsf j th Hj Hrun) as [Hwj _]. congruence.
Qed.

Lemma start_single_flight (g : GUI) :
  single_flight g → transcribe_btn_visible (view g) = true →
  single_flight (start_transcription g).
Proof.
  intros Hsf Hvis. unfold start_transcription.
  destruct (negb (str_truthy (current_file g))); [done |].
  destruct (diarize_check (panel g) && bool_decide (hf_token_input (panel g) = ""));
    [done |].
  intros i th. simpl. intros Hi Hrun.
  destruct (decide (i < length (threads g))%nat) as [Hlt | Hge].
  - rewrite lookup_app_l in Hi by done.
    destruct (Hsf i th Hi Hrun) as [_ Hhid]. congruence.
  - rewrite lookup_app_r in Hi by lia.
    destruct (i - length (threads g))%nat as [|d] eqn:Hd; [| done].
    split; [f_equal; lia | done].
Qed.

(** An export changes the status bar, the message boxes and the files,
    and nothing else. *)
Lemma export_result_frame (format file_path : string)
    (write_error : option write_failure) (g : GUI) :
  let g' := export_result json_dumps format file_path write_error g in
  current_file g' = current_file g ∧ worker g' = worker g
  ∧ result g' = result g ∧ panel g' = panel g ∧ threads g' = threads g
  ∧ show_message "" (view g') = show_message "" (view g).
Proof.
  intros g'. subst g'. unfold export_result, write_file.
  repeat case_match; simplify_eq/=; done.
Qed.

Lemma handle_single_flight (ev : Event) (g g' : GUI) :
  single_flight g → handle json_dumps str_float ev g = Some g' →
  single_flight g'.
Proof.
  intros Hsf Hev. destruct ev as [p | p | | late | fmt p e | i s]; simpl in Hev.
  - destruct p as [|c p]; [done |]. inversion Hev; subst g'. exact Hsf.
  - inversion Hev; subst g'. exact Hsf.
  - destruct (transcribe_btn_enabled (view g)); simpl in Hev; [| done].
    destruct (transcribe_btn_visible (view g)) eqn:Hvis; [| done].
    inversion Hev; subst g'. by apply start_single_flight.
  - destruct (cancel_btn_visible (view g)); [| done].
    destruct (deliver_all json_dumps str_float late (cancel_transcription g))
      as [g1|] eqn:Hd; [| done].
    inversion Hev; subst g'. apply idle_single_flight.
    apply (idle_threads (cancel_transcription g)).
    + by apply deliver_all_keeps_threads in Hd.
    + by apply cancel_idle.
  - destruct (export_btn_enabled fmt (view g)); [| done].
    inversion Hev; subst g'.
    destruct (export_result_frame fmt p e g) as (_ & Hwk & _ & _ & Ht & Hv).
    intros i th. rewrite Ht, Hwk.
    replace (transcribe_btn_visible (view (export_result json_dumps fmt p e g)))
      with (transcribe_btn_visible (view g))
      by (by apply (f_equal transcribe_btn_visible) in Hv).
    apply Hsf.
  - destruct (threads g !! i) as [th|] eqn:Hth; [| done].
    destruct (th_running th) eqn:Hrun; [| done].
    destruct s as [v msg | r | msg]; simpl in Hev.
    + inversion Hev; subst g'. exact Hsf.
    + destruct (on_transcription_complete json_dumps str_float r
                  (thread_exits i g)) as [g1|] eqn:Hc; [| done].
      inversion Hev; subst g'. apply idle_single_flight.
      apply (idle_threads (thread_exits i g)).
      * by apply complete_keeps_threads in Hc.
      * apply exit_idle; [done | by rewrite Hth |]. intros th' Hth'. congruence.
    + inversion Hev; subst g'. apply idle_single_flight.
      apply (idle_threads (thread_exits i g)); [done |].
      apply exit_idle; [done | by rewrite Hth |]. intros th' Hth'. congruence.
Qed.


(** C4. In every state the window can reach, at most one worker thread
    is running, and it is the one [self.worker] names.  While it runs the
    start button is hidden, so that no start request is accepted: a click
    on the button is not delivered.  Whatever the next event is, at most
    one worker runs after it: no second worker is started beside a running
    one. *)
Theorem single_flight_by_hidden_button (cuda : bool) (g : GUI) :
  reachable json_dumps str_float cuda g →
  single_flight g
  ∧ (running_threads g ≤ 1)%nat
  ∧ (running_threads g = 1%nat →
       transcribe_btn_visible (view g) = false
       ∧ handle json_dumps str_float TranscribeClicked g = None)
  ∧ (∀ ev g', handle json_dumps str_float ev g = Some g' →
              (running_threads g' ≤ 1)%nat).
Proof.
  intros Hreach.
  assert (Hsf : single_flight g).
  { induction Hreach as [| g ev g' _ IH Hev].
    - intros i th Hi. done.
    - by apply (handle_single_flight ev g g'). }
  split; [exact Hsf |]. split; [by apply single_flight_at_most_one |].
  split.
  - intros Hone. pose proof (running_hidden g Hsf Hone) as Hhid.
    split; [exact Hhid |]. simpl. rewrite Hhid.
    by destruct (transcribe_btn_enabled (view g)).
  - intros ev g' Hev. apply single_flight_at_most_one.
    by apply (handle_single_flight ev g g').
Qed.

(** *** Start requests without a token *)

Lemma start_without_token (g : GUI) :
  diarize_check (panel g) = true →
  hf_token_input (panel g) = "" →
  start_transcription g
  = if str_truthy (current_file g) then show_dialog token_warning g else g.
Proof.
  intros Hdiar Htoken. unfold start_transcription.
  rewrite Hdiar, Htoken. simpl.
  by destruct (str_truthy (current_file g)).
Qed.

Lemma complete_keeps_file (r : Result) (g g' : GUI) :
  on_transcription_complete json_dumps str_float r g = Ok g' →
  current_file g' = current_file g.
Proof.
  unfold on_transcription_complete. intros H.
  destruct (res_segments r) as [segments|]; simpl in H.
  - destruct (val_join " " (segment_texts segments)); simpl in H; [| done].
    destruct (segment_lines str_float segments ""); simpl in H; [| done].
    by inversion H.
  - by inversion H.
Qed.

Lemma deliver_keeps_file (s : Signal) (g g' : GUI) :
  deliver json_dumps str_float s g = Ok g' →
  current_file g' = current_file g.
Proof.
  destruct s as [v msg | r | msg]; simpl; intros H.
  - by inversion H.
  - by apply complete_keeps_file in H.
  - by inversion H.
Qed.

Lemma deliver_all_keeps_file (l : list Signal) :
  ∀ g g', deliver_all json_dumps str_float l g = Ok g' →
          current_file g' = current_file g.
Proof.
  induction l as [|s l IH]; intros g g' H; simpl in H.
  - by inversion H.
  - destruct (deliver json_dumps str_float s g) as [g1|] eqn:Hd;
      simpl in H; [| done].
    rewrite (IH g1 g' H). by apply deliver_keeps_file in Hd.
Qed.

Lemma start_keeps_file (g : GUI) :
  current_file (start_transcription g) = current_file g.
Proof. unfold start_transcription. by repeat case_match. Qed.

Lemma handle_file_selected (ev : Event) (g g' : GUI) :
  file_selected_once_enabled g →
  handle json_dumps str_float ev g = Some g' →
  file_selected_once_enabled g'.
Proof.
  intros Hinv Hev. destruct ev as [p | p | | late | fmt p e | i s]; simpl in Hev.
  - destruct p as [|c p]; [done |]. inversion Hev; subst g'. by left.
  - inversion Hev; subst g'. exact Hinv.
  - destruct (transcribe_btn_enabled (view g)) eqn:Hen; simpl in Hev; [| done].
    destruct (transcribe_btn_visible (view g)); [| done].
    inversion Hev; subst g'. left. rewrite start_keeps_file.
    destruct Hinv as [Hfile | (Hoff & _)]; [done | congruence].
  - destruct (cancel_btn_visible (view g)) eqn:Hvis; [| done].
    destruct (deliver_all json_dumps str_float late (cancel_transcription g))
      as [g1|] eqn:Hd; [| done].
    inversion Hev; subst g'. left.
    rewrite (deliver_all_keeps_file late _ _ Hd).
    destruct Hinv as [Hfile | (_ & Hoff & _)]; [| congruence].
    unfold cancel_transcription. by destruct (worker g).
  - destruct (export_btn_enabled fmt (view g)); [| done].
    inversion Hev; subst g'.
    destruct (export_result_frame fmt p e g) as (Hf & _ & _ & _ & Ht & Hv).
    destruct Hinv as [Hfile | (Hen & Hvis & Hth)]; [left; by rewrite Hf |].
    right. rewrite Ht.
    apply (f_equal transcribe_btn_enabled) in Hv as Hv1.
    apply (f_equal cancel_btn_visible) in Hv as Hv2.
    simpl in Hv1, Hv2. by rewrite Hv1, Hv2.
  - destruct (threads g !! i) as [th|] eqn:Hth; [| done].
    destruct (th_running th); [| done].
    destruct (deliver json_dumps str_float s
                (if is_terminal s then thread_exits i g else g))
      as [g1|] eqn:Hd; [| done].
    inversion Hev; subst g'. left.
    rewrite (deliver_keeps_file s _ _ Hd).
    destruct Hinv as [Hfile | (_ & _ & Hnone)].
    + by destruct (is_terminal s).
    + rewrite Hnone in Hth. done.
Qed.

Lemma reachable_file_selected (cuda : bool) (g : GUI) :
  reachable json_dumps str_float cuda g → file_selected_once_enabled g.
Proof.
  induction 1 as [| g ev g' _ IH Hev].
  - right. by repeat split.
  - by apply (handle_file_selected ev g g').
Qed.

(** C2. In every state the window can reach, a start request made with
    diarization checked and no token entered is rejected before a worker
    is started: the warning is shown and nothing else changes, so that no
    worker thread is created or started and the progress widgets stay as
    they are. *)
Theorem start_request_without_token_rejected (cuda : bool) (g g' : GUI) :
  reachable json_dumps str_float cuda g →
  diarize_check (panel g) = true →
  hf_token_input (panel g) = "" →
  handle json_dumps str_float TranscribeClicked g = Some g' →
  g' = show_dialog token_warning g
  ∧ threads g' = threads g
  ∧ worker g' = worker g
  ∧ view g' = view g
  ∧ dialogs g' = dialogs g ++ [token_warning].
Proof.
  intros Hreach Hdiar Htoken Hev. simpl in Hev.
  destruct (transcribe_btn_enabled (view g)) eqn:Hen; simpl in Hev; [| done].
  destruct (transcribe_btn_visible (view g)); [| done].
  inversion Hev; subst g'. rewrite (start_without_token g Hdiar Htoken).
  destruct (reachable_file_selected cuda g Hreach) as [-> | (Hoff & _)];
    [done | congruence].
Qed.

End Window.

Lemma single_flight_by_hidden_button_witness :
  (running_threads busy_gui ≤ 1)%nat.
Proof.
  apply (single_flight_by_hidden_button (λ _, "") (λ _, "") false busy_gui).
  apply (reachable_step _ _ false
           (on_file_selected "/tmp/a.mp3" (init_gui false)) TranscribeClicked).
  - apply (reachable_step _ _ false (init_gui false)
             (FileDropped "/tmp/a.mp3")); [constructor | reflexivity].
  - reflexivity.
Defined.

Lemma start_request_without_token_rejected_witness :
  dialogs (start_transcription no_token_gui) = [token_warning].
Proof.
  apply (start_request_without_token_rejected (λ _, "") (λ _, "") false
           no_token_gui (start_transcription no_token_gui)).
  - apply (reachable_step _ _ false
             (on_file_selected "/tmp/a.mp3" (init_gui false))
             (PanelEdited no_token_panel)).
    + apply (reachable_step _ _ false (init_gui false)
               (FileDropped "/tmp/a.mp3")); [constructor | reflexivity].
    + reflexivity.
  - reflexivity.
  - reflexivity.
  - reflexivity.
Defined.

(** * Further properties *)

(** ** The worker, on every run *)

(** X1. On every run, whether it ends with the result, with an error or
    by cancellation, the percent values of the progress events strictly
    increase and lie between 5 and 100. *)
Theorem progress_increases_on_every_run (env : Pipeline) (flag : nat → bool)
    (audio_file : string) (settings : Settings) :
  let log := (run env flag audio_file settings []).2 in
  Sorted Z.lt (percents log) ∧ Forall (λ v, 5 <= v <= 100) (percents log).
Proof.
  intros log. subst log. run_cases; cbn.
  all: split; repeat constructor; lia.
Qed.

(** X2. A run ends in one of four ways.  When it returns early, its last
    action is a read that found the flag set and it has emitted progress
    events only.  When it runs to its end, it has emitted progress events
    followed by one result or error signal, which is its last action.
    When an exception leaves it, the exception is not an instance of
    [Exception], a pipeline call raised it as the last action, and the run
    has emitted progress events only. *)
Theorem run_ends_in_one_way (env : Pipeline) (flag : nat → bool)
    (audio_file : string) (settings : Settings) :
  let r := run env flag audio_file settings [] in
  match r.1 with
  | Returned =>
      last r.2 = Some (ReadCancelled true)
      ∧ forallb is_progress (signals r.2) = true
  | Normal _ =>
      ∃ t, signals r.2 = List.filter is_progress (signals r.2) ++ [t]
           ∧ is_progress t = false ∧ last r.2 = Some (Emit t)
  | Raised e =>
      (∃ cls msg, e = BaseException cls msg)
      ∧ (∃ c, last r.2 = Some (Call c))
      ∧ forallb is_progress (signals r.2) = true
  end.
Proof.
  intros r. subst r. run_cases; cbn.
  all: first [ split; reflexivity
             | eexists; split; [reflexivity | split; reflexivity]
             | split; [do 2 eexists; reflexivity
                      | split; [eexists; reflexivity | reflexivity]] ].
Qed.

Ltac split_ifs :=
  repeat match goal with
         | |- context [if ?b then _ else _] => destruct b eqn:?
         end.

(** X3. When the flag is already set at the first checkpoint, the run
    has emitted the first progress event (5) and nothing else: it returns
    without loading the model and emits neither a result nor an error. *)
Theorem cancel_before_start_loads_nothing (env : Pipeline) (flag : nat → bool)
    (audio_file : string) (settings : Settings) :
  import_modules env = Ok () →
  flag 2%nat = true →
  run env flag audio_file settings []
  = (Returned,
     [Call ImportModules;
      Emit (Progress 5 ("🔄 Chargement du modèle '"
                          +:+ default "small" (s_model settings) +:+ "'..."));
      ReadCancelled true]).
Proof.
  intros Himport Hflag. run_cases; try congruence; reflexivity.
Qed.

Lemma cancel_before_start_loads_nothing_witness :
  calls (run (sample_pipeline true) (cancelled_from 0) "a.mp3"
           (sample_settings true true (Some "hf_token")) []).2
  = [ImportModules].
Proof.
  rewrite (cancel_before_start_loads_nothing (sample_pipeline true)
             (cancelled_from 0) "a.mp3"
             (sample_settings true true (Some "hf_token")) eq_refl eq_refl).
  reflexivity.
Defined.

(** X4. With alignment disabled, no run calls the alignment model loader
    or the aligner or releases an alignment model, and a run that ends with
    the result has emitted the notice that alignment was skipped, at 75. *)
Theorem alignment_skipped_when_disabled (env : Pipeline) (flag : nat → bool)
    (audio_file : string) (settings : Settings) :
  default true (s_align settings) = false →
  let log := (run env flag audio_file settings []).2 in
  (LoadAlignModel ∉ calls log)
  ∧ (Align ∉ calls log)
  ∧ releases "model_a" log = 0%nat
  ∧ (succeeded log = true →
       In (Emit (Progress 75 "⏭️ Alignement ignoré")) log).
Proof.
  intros Halign log. subst log. run_cases; try congruence; cbn.
  all: split; [by apply (bool_decide_unpack _) |].
  all: split; [by apply (bool_decide_unpack _) |].
  all: split; [reflexivity |].
  all: intros Hs; try discriminate Hs; cbn; tauto.
Qed.

Lemma alignment_skipped_when_disabled_witness :
  releases "model_a"
    (run (sample_pipeline true) never_cancelled "a.mp3"
       (sample_settings false false None) []).2
  = 0%nat.
Proof.
  apply (alignment_skipped_when_disabled (sample_pipeline true)
           never_cancelled "a.mp3" (sample_settings false false None)).
  reflexivity.
Defined.

(** X5. Unless diarization is requested and a non-empty token is given,
    no run calls the diarization pipeline.  On a run that ends with the
    result, diarization switched off is announced by the notice at 95,
    while diarization requested without a token is skipped without any
    progress event at 95. *)
Theorem diarization_needs_flag_and_token (env : Pipeline) (flag : nat → bool)
    (audio_file : string) (settings : Settings) :
  default false (s_diarize settings) && str_truthy (s_hf_token settings)
  = false →
  let log := (run env flag audio_file settings []).2 in
  (NewDiarizationPipeline ∉ calls log)
  ∧ (Diarize ∉ calls log)
  ∧ (AssignWordSpeakers ∉ calls log)
  ∧ (succeeded log = true →
       if default false (s_diarize settings)
       then 95 ∉ percents log
       else In (Emit (Progress 95 "⏭️ Diarisation ignorée")) log).
Proof.
  intros Hoff log. subst log. run_cases; try discriminate Hoff; cbn.
  all: split; [by apply (bool_decide_unpack _) |].
  all: split; [by apply (bool_decide_unpack _) |].
  all: split; [by apply (bool_decide_unpack _) |].
  all: intros Hs; try discriminate Hs; split_ifs; try discriminate Hoff.
  all: first [ by apply (bool_decide_unpack _) | cbn; tauto ].
Qed.

Lemma diarization_needs_flag_and_token_witness :
  Diarize ∉ calls (run (sample_pipeline true) never_cancelled "a.mp3"
                     (sample_settings true true None) []).2.
Proof.
  apply (diarization_needs_flag_and_token (sample_pipeline true)
           never_cancelled "a.mp3" (sample_settings true true None)).
  reflexivity.
Defined.

Ltac split_settings :=
  repeat match goal with
         | |- context [if default ?a ?b then _ else _] =>
             destruct (default a b) eqn:?
         | |- context [str_truthy ?x] => destruct (str_truthy x) eqn:?
         | |- context [cuda_is_available ?e] =>
             destruct (cuda_is_available e) eqn:?
         end.

(** X6. The pipeline calls of every run are an initial part of one fixed
    sequence: imports, model, audio, transcription, then alignment and
    diarization as the settings ask, with the accelerator cache emptied
    after each cleanup when CUDA is available.  No stage call is made
    twice, and a run that ends with the result has made them all. *)
Theorem calls_follow_the_stages (env : Pipeline) (flag : nat → bool)
    (audio_file : string) (settings : Settings) :
  let log := (run env flag audio_file settings []).2 in
  let expected := expected_calls settings (cuda_is_available env) in
  calls log `prefix_of` expected
  ∧ NoDup (filter (λ c, c ≠ CudaEmptyCache) (calls log))
  ∧ (succeeded log = true → calls log = expected).
Proof.
  intros log expected. subst log expected. unfold expected_calls.
  run_cases; cbn [fst snd].
  all: split_settings.
  all: split; [eexists; cbn; reflexivity |].
  all: split; [apply (bool_decide_unpack _); vm_compute; reflexivity |].
  all: intros Hs; first [discriminate Hs | reflexivity].
Qed.



(** X8. When alignment is enabled and the transcription result has no
    [language] key, the run fails before the alignment model is loaded:
    after the progress event 55 it emits the error ['language'], the text of
    the [KeyError], and no result. *)
Theorem missing_language_fails_alignment (env : Pipeline) (flag : nat → bool)
    (audio_file : string) (settings : Settings) (model : Model env)
    (audio : Audio env) (r : Result) :
  default true (s_align settings) = true →
  import_modules env = Ok () →
  load_model env (default "small" (s_model settings))
    (default "cpu" (s_device settings))
    (default "int8" (s_compute_type settings)) = Ok model →
  load_audio env audio_file = Ok audio →
  transcribe env model audio (default 8 (s_batch_size settings))
    (if str_truthy (s_language settings) then s_language settings else None)
  = Ok r →
  res_language r = None →
  flag 2%nat = false → flag 5%nat = false → flag 8%nat = false →
  flag 12%nat = false →
  let log := (run env flag audio_file settings []).2 in
  calls log = [ImportModules; LoadModel; LoadAudio; Transcribe]
  ∧ percents log = [5; 15; 20; 25; 50; 55]
  ∧ last log = Some (Emit (Error "'language'")).
Proof.
  intros Halign Himport Hmodel Haudio Htrans Hlang H2 H5 H8 H12 log.
  subst log. run_cases; cbn [fst snd].
  all: try congruence.
  all: simplify_eq; try congruence.
  all: repeat split; reflexivity.
Qed.

Lemma missing_language_fails_alignment_witness :
  last (run no_language_pipeline never_cancelled "a.mp3"
          (sample_settings true false None) []).2
  = Some (Emit (Error "'language'")).
Proof.
  apply (missing_language_fails_alignment no_language_pipeline never_cancelled
           "a.mp3" (sample_settings true false None) () ()
           {| res_language := None; res_segments := Some [] |});
    reflexivity.
Defined.

(** X9. Without alignment and without diarization (switched off or
    lacking a token), the result emitted by a successful run is the very
    result that the transcription call returned. *)
Theorem result_passes_through_unchanged (env : Pipeline) (flag : nat → bool)
    (audio_file : string) (settings : Settings) :
  default true (s_align settings) = false →
  default false (s_diarize settings) && str_truthy (s_hf_token settings)
  = false →
  let log := (run env flag audio_file settings []).2 in
  succeeded log = true →
  ∃ model audio language r,
    transcribe env model audio (default 8 (s_batch_size settings)) language
    = Ok r
    ∧ last log = Some (Emit (Finished r)).
Proof.
  intros Halign Hoff log. subst log. run_cases; cbn [fst snd].
  all: try congruence; try discriminate Hoff.
  all: intros Hs; try discriminate Hs.
  all: do 4 eexists; split; [eassumption | reflexivity].
Qed.

Lemma result_passes_through_unchanged_witness :
  ∃ model audio language r,
    transcribe (sample_pipeline false) model audio 8 language = Ok r
    ∧ last (run (sample_pipeline false) never_cancelled "a.mp3"
              (sample_settings false false None) []).2
      = Some (Emit (Finished r)).
Proof.
  apply (result_passes_through_unchanged (sample_pipeline false)
           never_cancelled "a.mp3" (sample_settings false false None));
    reflexivity.
Defined.

(** ** Timestamps and durations, further *)

Lemma Qfloor_negative (x : Q) : (x < 0)%Q → Qfloor x < 0.
Proof.
  destruct x as [n d]. unfold Qlt, Qfloor. simpl. intros H.
  apply Z.div_lt_upper_bound; lia.
Qed.

Lemma Qfloor_below (x : Q) (c : Z) : (x < inject_Z c)%Q → Qfloor x < c.
Proof.
  destruct x as [n d]. unfold Qlt, Qfloor, inject_Z. simpl. intros H.
  apply Z.div_lt_upper_bound; lia.
Qed.

Lemma Qfloor_above (x : Q) (c : Z) : (inject_Z c <= x)%Q → c <= Qfloor x.
Proof.
  destruct x as [n d]. unfold Qle, Qfloor, inject_Z. simpl. intros H.
  apply Z.div_le_lower_bound; lia.
Qed.

(** X11. A negative number of seconds is not rejected: the hours field
    is the negative floor of [seconds / 3600], so the text starts with a
    minus sign.  The minutes and seconds come from remainders moved to the
    positive side by a rounded addition, which can reach the divisor: for
    the float [0.3 - 0.1 - 0.2] the text is [-1:60:60,000].  The
    milliseconds keep the sign of the input: for [-0.5] the text is
    [-1:59:59,-500]. *)
Theorem format_time_negative (seconds : Q) :
  (seconds < 0)%Q →
  Py.int (Py.floordiv seconds 3600) < 0
  ∧ (∃ rest, format_time seconds = String "-" rest)
  ∧ format_time tiny_negative = "-1:60:60,000"
  ∧ format_time (-0.5) = "-1:59:59,-500".
Proof.
  intros Hx.
  assert (Hh : Py.int (Py.floordiv seconds 3600) < 0).
  { rewrite (int_floordiv seconds 3600).
    pose proof (Qfloor_negative seconds Hx).
    apply Z.div_lt_upper_bound; lia. }
  split; [exact Hh |]. split; [| split; vm_compute; reflexivity].
  unfold format_time, Py.format_0d.
  apply Z.ltb_lt in Hh. rewrite Hh. eexists. reflexivity.
Qed.

Lemma format_time_negative_witness :
  ∃ rest, format_time (-0.5) = String "-" rest.
Proof.
  apply (format_time_negative (-0.5)). unfold Qlt. simpl. lia.
Defined.

(** X12. [format_duration] has no hours field: below 60 seconds it prints
    the whole seconds alone, from 60 seconds on it prints minutes and
    seconds, and from an hour on the minutes are 60 or more. *)
Theorem format_duration_thresholds (seconds : Q) :
  (0 <= seconds)%Q →
  ((seconds < 60)%Q →
     format_duration seconds = pretty (Qfloor seconds) +:+ "s")
  ∧ ((60 <= seconds)%Q →
     format_duration seconds
     = pretty (Qfloor seconds / 60) +:+ "m "
         +:+ pretty (Qfloor seconds mod 60) +:+ "s")
  ∧ ((3600 <= seconds)%Q → 60 <= Qfloor seconds / 60).
Proof.
  intros Hx. pose proof (Qfloor_nonneg seconds Hx) as Ht.
  assert (Heq : format_duration seconds
    = if 0 <? Qfloor seconds / 60
      then pretty (Qfloor seconds / 60) +:+ "m "
             +:+ pretty (Qfloor seconds mod 60) +:+ "s"
      else pretty (Qfloor seconds mod 60) +:+ "s").
  { unfold format_duration, Py.str_int.
    by rewrite (int_floordiv seconds 60), (int_mod seconds 60 Hx). }
  split; [| split].
  - intros Hlt. pose proof (Qfloor_below seconds 60 Hlt) as Hb.
    rewrite Heq, Z.div_small, Z.mod_small by lia. reflexivity.
  - intros Hge. pose proof (Qfloor_above seconds 60 Hge) as Ha.
    rewrite Heq.
    assert ((0 <? Qfloor seconds / 60) = true) as ->; [| done].
    apply Z.ltb_lt. Z.div_mod_to_equations. lia.
  - intros Hge. pose proof (Qfloor_above seconds 3600 Hge) as Ha.
    Z.div_mod_to_equations. lia.
Qed.

Lemma format_duration_thresholds_witness :
  format_duration 59.9 = pretty 59 +:+ "s".
Proof.
  apply (format_duration_thresholds 59.9).
  - unfold Qle. simpl. lia.
  - unfold Qlt. simpl. lia.
Defined.

(** ** The exporter, further *)

Lemma srt_block_bad_text (i : Z) (seg : Segment) (v : pyval) :
  is_Some (seg_number seg "start") → is_Some (seg_number seg "end") →
  seg !! "text" = Some v → (∀ s, v ≠ VStr s) →
  srt_block i seg = Raise (AttributeError v "strip").
Proof.
  intros [x Hx] [y Hy] Hv Hbad. unfold srt_block.
  rewrite (format_time_val_number seg "start" x Hx),
    (format_time_val_number seg "end" y Hy).
  unfold dict_get. rewrite Hv. simpl.
  destruct v as [| n | q | s]; try reflexivity. by destruct (Hbad s).
Qed.

Lemma srt_loop_raise (segs1 : list Segment) (seg : Segment)
    (segs2 : list Segment) (e : exn) :
  Forall well_typed segs1 →
  ∀ i acc,
    srt_block (i + Z.of_nat (length segs1)) seg = Raise e →
    srt_loop i (segs1 ++ seg :: segs2) acc = Raise e.
Proof.
  induction 1 as [|s rest Hs _ IH]; intros i acc Hraise; simpl in *.
  - rewrite Z.add_0_r in Hraise. by rewrite Hraise.
  - rewrite (srt_block_well_typed i s Hs). simpl. apply IH.
    replace (i + 1 + Z.of_nat (length rest))
      with (i + Z.pos (Pos.of_succ_nat (length rest))) by lia.
    exact Hraise.
Qed.

Section Exporter.

Variable json_dumps : Result → string.

(** X13. For a result whose segments hold a string under [text] (or lack
    the key), whatever they hold under [start] and [end], the [txt] export
    writes to the chosen file the texts joined by single spaces, without
    the spaces at the two ends of the joined text, and then shows the
    confirmation. *)
Theorem txt_export_joined_text (g : GUI) (r : Result)
    (segments : list Segment) (file_path : string) :
  result g = Some r →
  res_segments r = Some segments →
  Forall (λ seg, is_Some (seg_text seg)) segments →
  file_path ≠ "" →
  let joined :=
    Py.join " " ((λ seg, default "" (seg_text seg)) <$> segments) in
  let text := Py.strip joined in
  let g' := export_result json_dumps "txt" file_path None g in
  txt_content r = Ok text
  ∧ trimmed_of joined text
  ∧ files g' !! file_path = Some text
  ∧ dialogs g'
    = dialogs g ++ [Information "Export terminé"
                      ("Fichier enregistré :" +:+ nl +:+ file_path)].
Proof.
  intros Hres Hsegs Htexts Hpath joined text g'.
  assert (Htxt : txt_content r = Ok text).
  { unfold txt_content, val_join. rewrite Hsegs. simpl.
    by rewrite (join_items_texts segments Htexts 0%nat). }
  split; [exact Htxt |]. split; [apply strip_trimmed |].
  subst g'. unfold export_result. rewrite Hres.
  assert (result_truthy r = true) as ->.
  { unfold result_truthy. rewrite Hsegs.
    rewrite (bool_decide_eq_true_2 (is_Some (Some segments))) by eauto.
    apply orb_true_r. }
  destruct file_path as [|c p]; [done |]. simpl. rewrite Htxt. simpl.
  split; [apply lookup_insert_eq | reflexivity].
Qed.

(** X14. A segment whose [text] is not a string aborts the whole [srt]
    export, wherever it stands: the error dialog shows the
    [AttributeError], no file is written, not even for the segments before
    it, and the result stays in memory. *)
Theorem srt_export_aborts_on_bad_text (g : GUI) (r : Result)
    (segs1 : list Segment) (seg : Segment) (segs2 : list Segment)
    (v : pyval) (file_path : string) (write_error : option write_failure) :
  result g = Some r →
  res_segments r = Some (segs1 ++ seg :: segs2) →
  Forall well_typed segs1 →
  is_Some (seg_number seg "start") → is_Some (seg_number seg "end") →
  seg !! "text" = Some v → (∀ s, v ≠ VStr s) →
  file_path ≠ "" →
  let g' := export_result json_dumps "srt" file_path write_error g in
  g' = show_dialog
         (Critical "Erreur d'export"
            ("Échec de l'export :" +:+ nl +:+ "'" +:+ type_name v
             +:+ "' object has no attribute 'strip'")) g
  ∧ files g' = files g
  ∧ result g' = Some r.
Proof.
  intros Hres Hsegs Hwt Hstart Hend Hv Hbad Hpath g'.
  assert (Hsrt : srt_content r = Raise (AttributeError v "strip")).
  { unfold srt_content. rewrite Hsegs. simpl. apply srt_loop_raise; [done |].
    by apply srt_block_bad_text. }
  assert (Hg' : g' = show_dialog
         (Critical "Erreur d'export"
            ("Échec de l'export :" +:+ nl +:+ "'" +:+ type_name v
             +:+ "' object has no attribute 'strip'")) g).
  { subst g'. unfold export_result. rewrite Hres.
    assert (result_truthy r = true) as ->.
    { unfold result_truthy. rewrite Hsegs.
      rewrite (bool_decide_eq_true_2 (is_Some (Some (segs1 ++ seg :: segs2))))
        by eauto.
      apply orb_true_r. }
    destruct file_path as [|c p]; [done |]. simpl. rewrite Hsrt. reflexivity. }
  split; [exact Hg' |]. rewrite Hg'. simpl. by rewrite Hres.
Qed.

(** X15. An export never changes the result held by the window nor the
    worker threads.  When [open] fails no file is changed.  When the write
    fails after [open] has truncated the file, the file is left with what
    was written until then.  In both cases the error dialog of the [json]
    export shows the text of the exception. *)
Theorem export_keeps_result (format file_path : string)
    (write_error : option write_failure) (g : GUI) :
  let g' := export_result json_dumps format file_path write_error g in
  result g' = result g
  ∧ threads g' = threads g
  ∧ (∀ cls msg, write_error = Some (OpenFails cls msg) → files g' = files g)
  ∧ (∀ r cls msg, result g = Some r → result_truthy r = true →
       file_path ≠ "" → format = "json" →
       write_error = Some (OpenFails cls msg) →
       g' = show_dialog
              (Critical "Erreur d'export"
                 ("Échec de l'export :" +:+ nl +:+ msg)) g)
  ∧ (∀ r cls msg written, result g = Some r → result_truthy r = true →
       file_path ≠ "" → format = "json" →
       write_error = Some (WriteFails cls msg written) →
       g' = show_dialog
              (Critical "Erreur d'export"
                 ("Échec de l'export :" +:+ nl +:+ msg))
              (set_file file_path written g)).
Proof.
  intros g'.
  destruct (export_result_frame json_dumps format file_path write_error g)
    as (_ & _ & Hres & _ & Hth & _).
  split; [exact Hres |]. split; [exact Hth |]. subst g'.
  split; [| split].
  - intros cls msg ->. unfold export_result, write_file.
    repeat case_match; simplify_eq/=; done.
  - intros r cls msg Hr Htruthy Hpath -> ->. unfold export_result.
    rewrite Hr, Htruthy. destruct file_path as [|c p]; [done |]. reflexivity.
  - intros r cls msg written Hr Htruthy Hpath -> ->. unfold export_result.
    rewrite Hr, Htruthy. destruct file_path as [|c p]; [done |]. reflexivity.
Qed.

End Exporter.

Lemma txt_export_joined_text_witness :
  txt_content {| res_language := Some "en";
                 res_segments := Some text_only_segments |}
  = Ok "Hello world".
Proof.
  apply (txt_export_joined_text (λ _, "")
           {| current_file := None; worker := None;
              result := Some {| res_language := Some "en";
                                res_segments := Some text_only_segments |};
              panel := panel (init_gui false); view := view (init_gui false);
              threads := []; dialogs := []; files := ∅ |}
           {| res_language := Some "en";
              res_segments := Some text_only_segments |}
           text_only_segments "out.txt").
  - reflexivity.
  - reflexivity.
  - repeat constructor; vm_compute; eauto.
  - discriminate.
Defined.

Lemma export_keeps_result_witness :
  files (export_result (λ _, "{}") "json" "out.json"
           (Some (OpenFails "PermissionError" "Permission denied"))
           completed_gui)
  = files completed_gui.
Proof.
  apply (proj1 (proj2 (proj2 (export_keeps_result (λ _, "{}") "json"
           "out.json" (Some (OpenFails "PermissionError" "Permission denied"))
           completed_gui)))
           "PermissionError" "Permission denied").
  reflexivity.
Defined.

Lemma srt_export_aborts_on_bad_text_witness :
  files (export_result (λ _, "") "srt" "out.srt" None
           {| current_file := None; worker := None;
              result := Some {| res_language := Some "en";
                                res_segments :=
                                  Some (hello_world
                                        ++ [ {[ "text" := VNone ]} ]) |};
              panel := panel (init_gui false); view := view (init_gui false);
              threads := []; dialogs := []; files := ∅ |})
  = ∅.
Proof.
  apply (srt_export_aborts_on_bad_text (λ _, "")
           {| current_file := None; worker := None;
              result := Some {| res_language := Some "en";
                                res_segments :=
                                  Some (hello_world
                                        ++ [ {[ "text" := VNone ]} ]) |};
              panel := panel (init_gui false); view := view (init_gui false);
              threads := []; dialogs := []; files := ∅ |}
           {| res_language := Some "en";
              res_segments := Some (hello_world ++ [ {[ "text" := VNone ]} ]) |}
           hello_world {[ "text" := VNone ]} [] VNone "out.srt" None).
  - reflexivity.
  - reflexivity.
  - repeat constructor; vm_compute; eauto.
  - vm_compute; eauto.
  - vm_compute; eauto.
  - reflexivity.
  - discriminate.
  - discriminate.
Defined.

(** ** The job controller, further *)

(** X16. [start_transcription] either starts nothing or starts exactly
    one worker, which [self.worker] then names: it is running, not
    cancelled, holds the settings read from the panel and the selected,
    non-empty file; its settings carry a non-empty token whenever they ask
    for diarization and no token otherwise. *)
Theorem started_worker_has_file_and_token (g : GUI) :
  let g' := start_transcription g in
  threads g' = threads g
  ∨ ∃ th,
      threads g' = threads g ++ [th]
      ∧ worker g' = Some (length (threads g))
      ∧ th_running th = true
      ∧ th_is_cancelled th = false
      ∧ th_settings th = get_settings g
      ∧ current_file g = Some (th_audio_file th)
      ∧ th_audio_file th ≠ ""
      ∧ (s_diarize (th_settings th) = Some true →
           str_truthy (s_hf_token (th_settings th)) = true)
      ∧ (s_diarize (th_settings th) = Some false →
           s_hf_token (th_settings th) = None).
Proof.
  intros g'. subst g'. unfold start_transcription.
  destruct (current_file g) as [[|c p]|] eqn:Hfile; simpl; [by left | | by left].
  destruct (diarize_check (panel g)) eqn:Hdiar; simpl.
  - destruct (hf_token_input (panel g)) as [|c' t] eqn:Htoken; simpl;
      [by left |].
    right. eexists. split; [reflexivity |]. simpl.
    rewrite Hfile, Hdiar, Htoken. by repeat split.
  - right. eexists. split; [reflexivity |]. simpl.
    rewrite Hfile, Hdiar. by repeat split.
Qed.

Section Loop.

Variable json_dumps : Result → string.
Variable str_float : Q → string.

Lemma reachable_single_flight (cuda : bool) (g : GUI) :
  reachable json_dumps str_float cuda g → single_flight g.
Proof.
  induction 1 as [| g ev g' _ IH Hev].
  - intros i th Hi. done.
  - by apply (handle_single_flight json_dumps str_float ev g g').
Qed.

Lemma deliver_buttons_reset (s : Signal) (g g' : GUI) :
  deliver json_dumps str_float s g = Ok g' → buttons_reset g → buttons_reset g'.
Proof.
  destruct s as [v msg | r | msg]; simpl; intros H Hreset.
  - inversion H; subst g'. exact Hreset.
  - unfold on_transcription_complete in H.
    destruct (res_segments r) as [segments|]; simpl in H.
    + destruct (val_join " " (segment_texts segments)); simpl in H; [| done].
      destruct (segment_lines str_float segments ""); simpl in H; [| done].
      inversion H; subst g'. by repeat split.
    + inversion H; subst g'. by repeat split.
  - inversion H; subst g'. by repeat split.
Qed.

Lemma deliver_all_buttons_reset (l : list Signal) :
  ∀ g g', deliver_all json_dumps str_float l g = Ok g' →
          buttons_reset g → buttons_reset g'.
Proof.
  induction l as [|s l IH]; intros g g' H Hreset; simpl in H.
  - by inversion H; subst g'.
  - destruct (deliver json_dumps str_float s g) as [g1|] eqn:Hd;
      simpl in H; [| done].
    apply (IH g1 g' H). by apply (deliver_buttons_reset s g g1).
Qed.

Lemma idle_no_running (g : GUI) : idle g → running_threads g = 0%nat.
Proof.
  intros Hidle. unfold running_threads. rewrite filter_none; [done |].
  intros i th Hi. by apply (Hidle i th).
Qed.

(** X17. After a click on the cancel button, in any state the window can
    reach, no worker thread is running, the flag of the cancelled worker is
    set, and the buttons are reset: start enabled and shown, cancel and
    progress hidden. *)
Theorem cancel_stops_the_worker (cuda : bool) (g g' : GUI)
    (late : list Signal) :
  reachable json_dumps str_float cuda g →
  handle json_dumps str_float (CancelClicked late) g = Some g' →
  running_threads g' = 0%nat
  ∧ buttons_reset g'
  ∧ (∀ i th, worker g = Some i → threads g' !! i = Some th →
             th_is_cancelled th = true).
Proof.
  intros Hreach Hev. simpl in Hev.
  destruct (cancel_btn_visible (view g)); [| done].
  destruct (deliver_all json_dumps str_float late (cancel_transcription g))
    as [g1|] eqn:Hd; [| done].
  inversion Hev; subst g'.
  pose proof (reachable_single_flight cuda g Hreach) as Hsf.
  pose proof (deliver_all_keeps_threads json_dumps str_float late _ _ Hd) as Ht.
  split; [| split].
  - apply idle_no_running. apply (idle_threads (cancel_transcription g)); [done |].
    by apply cancel_idle.
  - apply (deliver_all_buttons_reset late _ _ Hd). by repeat split.
  - intros i th Hw Hi. rewrite Ht in Hi. unfold cancel_transcription in Hi.
    rewrite Hw in Hi. simpl in Hi.
    rewrite list_lookup_alter, decide_True in Hi by done.
    destruct (threads g !! i); by simplify_eq/=.
Qed.

Lemma export_view_consistent (format file_path : string)
    (write_error : option write_failure) (g : GUI) :
  view_consistent g →
  view_consistent (export_result json_dumps format file_path write_error g).
Proof.
  intros (H1 & H2 & H3 & H4 & H5).
  destruct (export_result_frame json_dumps format file_path write_error g)
    as (_ & _ & Hres & _ & _ & Hv).
  set (g' := export_result json_dumps format file_path write_error g) in *.
  apply (f_equal transcribe_btn_visible) in Hv as Hv1.
  apply (f_equal cancel_btn_visible) in Hv as Hv2.
  apply (f_equal progress_group_visible) in Hv as Hv3.
  apply (f_equal export_txt_btn_enabled) in Hv as Hv4.
  apply (f_equal export_srt_btn_enabled) in Hv as Hv5.
  apply (f_equal export_json_btn_enabled) in Hv as Hv6.
  simpl in Hv1, Hv2, Hv3, Hv4, Hv5, Hv6.
  unfold view_consistent. rewrite Hv1, Hv2, Hv3, Hv4, Hv5, Hv6, Hres.
  by repeat split.
Qed.

Lemma deliver_view_consistent (s : Signal) (g g' : GUI) :
  deliver json_dumps str_float s g = Ok g' →
  view_consistent g → view_consistent g'.
Proof.
  destruct s as [v msg | r | msg]; simpl; intros H Hc.
  - inversion H; subst g'. exact Hc.
  - unfold on_transcription_complete in H.
    destruct (res_segments r) as [segments|]; simpl in H.
    + destruct (val_join " " (segment_texts segments)); simpl in H; [| done].
      destruct (segment_lines str_float segments ""); simpl in H; [| done].
      inversion H; subst g'. repeat split; eauto.
    + inversion H; subst g'. repeat split; eauto.
  - inversion H; subst g'. destruct Hc as (H1 & H2 & H3 & H4 & H5).
    by repeat split.
Qed.

Lemma deliver_all_view_consistent (l : list Signal) :
  ∀ g g', deliver_all json_dumps str_float l g = Ok g' →
          view_consistent g → view_consistent g'.
Proof.
  induction l as [|s l IH]; intros g g' H Hc; simpl in H.
  - by inversion H; subst g'.
  - destruct (deliver json_dumps str_float s g) as [g1|] eqn:Hd;
      simpl in H; [| done].
    apply (IH g1 g' H). by apply (deliver_view_consistent s g g1).
Qed.

Lemma handle_view_consistent (ev : Event) (g g' : GUI) :
  view_consistent g → handle json_dumps str_float ev g = Some g' →
  view_consistent g'.
Proof.
  intros Hc Hev. pose proof Hc as (H1 & H2 & H3 & H4 & H5).
  destruct ev as [p | p | | late | fmt p e | i s]; simpl in Hev.
  - destruct p as [|c p]; [done |]. inversion Hev; subst g'. by repeat split.
  - inversion Hev; subst g'. by repeat split.
  - destruct (transcribe_btn_enabled (view g)
              && transcribe_btn_visible (view g)); [| done].
    inversion Hev; subst g'. unfold start_transcription.
    destruct (negb (str_truthy (current_file g))); [done |].
    destruct (diarize_check (panel g)
              && bool_decide (hf_token_input (panel g) = "")); [done |].
    by repeat split.
  - destruct (cancel_btn_visible (view g)); [| done].
    destruct (deliver_all json_dumps str_float late (cancel_transcription g))
      as [g1|] eqn:Hd; [| done].
    inversion Hev; subst g'.
    apply (deliver_all_view_consistent late _ _ Hd).
    unfold cancel_transcription. destruct (worker g); by repeat split.
  - destruct (export_btn_enabled fmt (view g)); [| done].
    inversion Hev; subst g'. by apply export_view_consistent.
  - destruct (threads g !! i) as [th|]; [| done].
    destruct (th_running th); [| done].
    destruct (deliver json_dumps str_float s
                (if is_terminal s then thread_exits i g else g))
      as [g1|] eqn:Hd; [| done].
    inversion Hev; subst g'.
    apply (deliver_view_consistent s _ _ Hd).
    destruct (is_terminal s); by repeat split.
Qed.

(** X18. In every state the window can reach, exactly one of the start
    and cancel buttons is shown, the progress group is shown with the
    cancel button, the three export buttons are enabled together and only
    once a result is held, so that no export can be requested before a
    transcription has completed. *)
Theorem window_stays_consistent (cuda : bool) (g : GUI) :
  reachable json_dumps str_float cuda g →
  cancel_btn_visible (view g) = negb (transcribe_btn_visible (view g))
  ∧ progress_group_visible (view g) = cancel_btn_visible (view g)
  ∧ export_srt_btn_enabled (view g) = export_txt_btn_enabled (view g)
  ∧ export_json_btn_enabled (view g) = export_txt_btn_enabled (view g)
  ∧ (export_txt_btn_enabled (view g) = true → is_Some (result g))
  ∧ (∀ format file_path write_error,
       result g = None →
       handle json_dumps str_float
         (ExportClicked format file_path write_error) g = None).
Proof.
  intros Hreach.
  assert (Hc : view_consistent g).
  { induction Hreach as [| g ev g' _ IH Hev].
    - repeat split; try done.
    - by apply (handle_view_consistent ev g g'). }
  destruct Hc as (H1 & H2 & H3 & H4 & H5).
  do 5 (split; [done |]).
  intros format file_path write_error Hnone. simpl.
  unfold export_btn_enabled. rewrite H3, H4.
  destruct (export_txt_btn_enabled (view g)) eqn:Hen.
  - destruct (H5 eq_refl) as [r Hr]. congruence.
  - by repeat case_match.
Qed.

(** X19. When a transcription completes, the string handed to the text
    pane is exactly what a [txt] export then writes, the result is held,
    the buttons are reset and the export is enabled. *)
Theorem text_pane_is_what_txt_export_writes (r : Result) (g g' : GUI)
    (segments : list Segment) (file_path : string) :
  on_transcription_complete json_dumps str_float r g = Ok g' →
  res_segments r = Some segments →
  file_path ≠ "" →
  result g' = Some r
  ∧ txt_content r = Ok (text_result (view g'))
  ∧ files (export_result json_dumps "txt" file_path None g') !! file_path
    = Some (text_result (view g'))
  ∧ buttons_reset g'
  ∧ export_txt_btn_enabled (view g') = true.
Proof.
  intros Hdone Hsegs Hpath. unfold on_transcription_complete in Hdone.
  rewrite Hsegs in Hdone. simpl in Hdone.
  destruct (val_join " " (segment_texts segments)) as [text|] eqn:Hjoin;
    simpl in Hdone; [| done].
  destruct (segment_lines str_float segments "") as [lines|];
    simpl in Hdone; [| done].
  inversion Hdone; subst g'. clear Hdone. simpl.
  assert (Htxt : txt_content r = Ok (Py.strip text)).
  { unfold txt_content. rewrite Hsegs. simpl. by rewrite Hjoin. }
  split; [done |]. split; [exact Htxt |]. split; [| by repeat split].
  unfold export_result. simpl.
  assert (result_truthy r = true) as ->.
  { unfold result_truthy. rewrite Hsegs.
    rewrite (bool_decide_eq_true_2 (is_Some (Some segments))) by eauto.
    apply orb_true_r. }
  destruct file_path as [|c p]; [done |]. simpl. rewrite Htxt. simpl.
  apply lookup_insert_eq.
Qed.

End Loop.

Lemma cancel_stops_the_worker_witness :
  running_threads (cancel_transcription busy_gui) = 0%nat.
Proof.
  apply (cancel_stops_the_worker (λ _, "") (λ _, "") false busy_gui
           (cancel_transcription busy_gui) []).
  - apply (reachable_step _ _ false
             (on_file_selected "/tmp/a.mp3" (init_gui false)) TranscribeClicked).
    + apply (reachable_step _ _ false (init_gui false)
               (FileDropped "/tmp/a.mp3")); [constructor | reflexivity].
    + reflexivity.
  - reflexivity.
Defined.

Lemma window_stays_consistent_witness :
  cancel_btn_visible (view busy_gui)
  = negb (transcribe_btn_visible (view busy_gui)).
Proof.
  apply (window_stays_consistent (λ _, "") (λ _, "") false busy_gui).
  apply (reachable_step _ _ false
           (on_file_selected "/tmp/a.mp3" (init_gui false)) TranscribeClicked).
  - apply (reachable_step _ _ false (init_gui false)
             (FileDropped "/tmp/a.mp3")); [constructor | reflexivity].
  - reflexivity.
Defined.

Lemma text_pane_is_what_txt_export_writes_witness :
  txt_content sample_result = Ok (text_result (view completed_gui)).
Proof.
  apply (text_pane_is_what_txt_export_writes (λ _, "") (λ _, "") sample_result
           busy_gui completed_gui
           [ {[ "start" := VFloat 0; "end" := VFloat 1.5;
                "text" := VStr " Hello" ]} ] "out.txt").
  - vm_compute. reflexivity.
  - reflexivity.
  - discriminate.
Defined.
